(** * Detectors of TrainTicketsBPE: request bundles, frontend integration,
      information holder resource.

    Shallow embedding of [src/map_detection/detectors/detectors.py].

    Python values are modelled as follows: service and endpoint names are
    [string]s, timestamps and counters are unbounded integers ([Z]), Python
    lists are [list]s, Python sets are [gset]s, [None] is [option]'s [None],
    and a raised exception is the [Raise] outcome of the [result] type.

    [print] only writes to standard output: it reads no returned collection
    and changes none, and the [user] label occurs nowhere else, so the
    notifications and the label are left out of the embedding of the
    detectors; module [Notify] has the detectors once more, together with the
    lines they write. *)

From stdpp Require Import base numbers strings list gmap sets pretty.

(* [naive_solver] and [set_solver] clear hypotheses that are already gone. *)
#[local] Set Warnings "-clear-no-such-hyp".

Local Open Scope string_scope.
Local Open Scope list_scope.
Local Open Scope Z_scope.

(** ** Outcomes of a Python computation *)

Inductive exn : Type :=
| TypeError   (* unpacking [None], or an operation on an object of the wrong type *)
| DanglingRef (* a reference to an object that is not in the store *).

Inductive result (A : Type) : Type :=
| Ok (a : A)
| Raise (e : exn).
Arguments Ok {A} a.
Arguments Raise {A} e.

#[global] Instance exn_eq_dec : EqDecision exn.
Proof. solve_decision. Defined.

#[global] Instance result_ret : MRet result := λ A a, Ok a.
#[global] Instance result_bind : MBind result := λ A B f m,
  match m with
  | Ok a => f a
  | Raise e => Raise e
  end.
#[global] Instance result_fmap : FMap result := λ A B f m,
  match m with
  | Ok a => Ok (f a)
  | Raise e => Raise e
  end.

(** ** Request bundles *)

Module Bundle.

(** One element of a pipeline: [(time, from_service, to_service, endpoint)]. *)
Definition Call : Type := Z * string * string * string.

Definition service_key : Type := string * string.
Definition endpoint_key : Type := string * string * string.

Definition service_bundle : Type := string * string * Z.
Definition endpoint_bundle : Type := string * string * string * Z.

(** [current_call_service] and [current_call_endpoint] of a call. *)
Definition call_service (c : Call) : service_key :=
  let '(_, from_service, to_service, _) := c in (from_service, to_service).
Definition call_endpoint (c : Call) : endpoint_key :=
  let '(_, from_service, to_service, endpoint) := c in
  (from_service, to_service, endpoint).

(** The local variables of [detect_request_bundle] that the loop updates. *)
Record locals : Type := Locals {
  bundles_service : list service_bundle;
  bundles_endpoint : list endpoint_bundle;
  last_call_service : option service_key;
  last_call_endpoint : option endpoint_key;
  count_service : Z;
  count_endpoint : Z
}.

(** Lines 39-44. *)
Definition init : locals :=
  {| bundles_service := []; bundles_endpoint := [];
     last_call_service := None; last_call_endpoint := None;
     count_service := 1; count_endpoint := 1 |}.

(** The tuple built from the starred [last_call] and the count: unpacking
    [None] raises [TypeError]. *)
Definition star_service (last : option service_key) (count : Z)
  : result service_bundle :=
  match last with
  | Some (f, t) => Ok (f, t, count)
  | None => Raise TypeError
  end.
Definition star_endpoint (last : option endpoint_key) (count : Z)
  : result endpoint_bundle :=
  match last with
  | Some (f, t, e) => Ok (f, t, e, count)
  | None => Raise TypeError
  end.

(** Lines 48-57: the service-level half of the loop body. *)
Definition step_service (threshold_service : Z) (current_call_service : service_key)
    (st : locals) : result locals :=
  if decide (Some current_call_service = last_call_service st) then
    Ok {| bundles_service := bundles_service st;
          bundles_endpoint := bundles_endpoint st;
          last_call_service := last_call_service st;
          last_call_endpoint := last_call_endpoint st;
          count_service := count_service st + 1;
          count_endpoint := count_endpoint st |}
  else
    bs ← (if decide (threshold_service ≤ count_service st) then
            b ← star_service (last_call_service st) (count_service st);
            Ok (bundles_service st ++ [b])
          else Ok (bundles_service st));
    Ok {| bundles_service := bs;
          bundles_endpoint := bundles_endpoint st;
          last_call_service := Some current_call_service;
          last_call_endpoint := last_call_endpoint st;
          count_service := 1;
          count_endpoint := count_endpoint st |}.

(** Lines 59-68: the endpoint-level half of the loop body. *)
Definition step_endpoint (threshold_endpoint : Z) (current_call_endpoint : endpoint_key)
    (st : locals) : result locals :=
  if decide (Some current_call_endpoint = last_call_endpoint st) then
    Ok {| bundles_service := bundles_service st;
          bundles_endpoint := bundles_endpoint st;
          last_call_service := last_call_service st;
          last_call_endpoint := last_call_endpoint st;
          count_service := count_service st;
          count_endpoint := count_endpoint st + 1 |}
  else
    be ← (if decide (threshold_endpoint ≤ count_endpoint st) then
            b ← star_endpoint (last_call_endpoint st) (count_endpoint st);
            Ok (bundles_endpoint st ++ [b])
          else Ok (bundles_endpoint st));
    Ok {| bundles_service := bundles_service st;
          bundles_endpoint := be;
          last_call_service := last_call_service st;
          last_call_endpoint := Some current_call_endpoint;
          count_service := count_service st;
          count_endpoint := 1 |}.

(** Lines 45-68: one iteration of the loop. *)
Definition body (threshold_service threshold_endpoint : Z) (st : locals) (c : Call)
  : result locals :=
  st1 ← step_service threshold_service (call_service c) st;
  step_endpoint threshold_endpoint (call_endpoint c) st1.

(** The [for] loop over the pipeline; an exception leaves the loop. *)
Fixpoint loop (threshold_service threshold_endpoint : Z) (st : locals)
    (pipeline : list Call) : result locals :=
  match pipeline with
  | [] => Ok st
  | c :: rest =>
      st' ← body threshold_service threshold_endpoint st c;
      loop threshold_service threshold_endpoint st' rest
  end.

Definition detect_request_bundle (pipeline : list Call)
    (threshold_service threshold_endpoint : Z)
  : result (list service_bundle * list endpoint_bundle) :=
  st ← loop threshold_service threshold_endpoint init pipeline;
  Ok (bundles_service st, bundles_endpoint st).

(** The defaults of the two thresholds. *)
Definition default_threshold : Z := 2.

End Bundle.

(** ** Call graphs

    The graphs are [networkx] objects; [networkx] is a library outside the
    repository. The module models the part of it the detectors use, after
    its documentation: [nx.DiGraph(G)] keeps the nodes of the multigraph [G]
    and one edge per connected pair, [D.succ[n]] and [D.pred[n]] are the
    neighbours of [n], and the degrees of an unweighted [DiGraph] count
    them (a self-loop counts once in each). *)

Module Graph.

(** A [networkx.MultiDiGraph] over service names as the detectors receive it:
    its nodes in insertion order and its edge instances [(u, v, key)]. *)
Record MultiDiGraph : Type := {
  mg_nodes : list string;
  mg_edges : list (string * string * string)
}.

(** A [networkx.DiGraph]: the nodes in insertion order and the set of
    directed edges (parallel edges cannot exist). *)
Record DiGraph : Type := {
  nodes : list string;
  edges : gset (string * string)
}.

Definition empty_graph : DiGraph := {| nodes := []; edges := ∅ |}.

(** [D.add_node(n)]: a node that is already present stays where it is. *)
Definition add_node (D : DiGraph) (n : string) : DiGraph :=
  if decide (n ∈ nodes D) then D
  else {| nodes := nodes D ++ [n]; edges := edges D |}.

(** [D.add_edge(u, v)]: adds the end points when they are missing. *)
Definition add_edge (D : DiGraph) (e : string * string * string) : DiGraph :=
  let '(u, v, _) := e in
  let D' := add_node (add_node D u) v in
  {| nodes := nodes D'; edges := {[ (u, v) ]} ∪ edges D' |}.

(** [nx.DiGraph(G)]: a new graph with the nodes of [G], in the same order,
    and an edge [u -> v] for every edge instance of [G] from [u] to [v]. *)
Definition nx_DiGraph (G : MultiDiGraph) : DiGraph :=
  foldl add_edge (foldl add_node empty_graph (mg_nodes G)) (mg_edges G).

(** [D.succ[u]] and [D.pred[v]], as sets of neighbours. *)
Definition succ (D : DiGraph) (u : string) : gset string :=
  set_map snd (filter (λ e : string * string, e.1 = u) (edges D)).
Definition pred (D : DiGraph) (v : string) : gset string :=
  set_map fst (filter (λ e : string * string, e.2 = v) (edges D)).

(** Degrees of a [DiGraph] without weights: the number of neighbours. *)
Definition out_degree (D : DiGraph) (n : string) : nat := size (succ D n).
Definition in_degree (D : DiGraph) (n : string) : nat := size (pred D n).

End Graph.

(** ** Frontend integration *)

Module Frontend.
Import Graph.

(** The two sets the loop fills. *)
Record locals : Type := Locals {
  frontend_candidates : gset string;
  frontend_violators : gset string
}.

(** Lines 108-117: one iteration, for [node] with its [in_degree]. *)
Definition body (D : DiGraph) (frontend_services : gset string)
    (st : locals) (node : string) : locals :=
  let in_degree := in_degree D node in
  if decide (in_degree = 0%nat) then
    if decide (0 < out_degree D node)%nat then
      {| frontend_candidates := frontend_candidates st ∪ {[ node ]};
         frontend_violators := frontend_violators st |}
    else st
  else if decide (node ∈ frontend_services) then
    {| frontend_candidates := frontend_candidates st;
       frontend_violators := frontend_violators st ∪ {[ node ]} |}
  else st.

Definition detect_frontend_integration (G : MultiDiGraph)
    (frontend_services : option (gset string)) : gset string * gset string :=
  let frontend_services := default ∅ frontend_services in
  let D := nx_DiGraph G in
  let st := foldl (body D frontend_services)
              {| frontend_candidates := ∅; frontend_violators := ∅ |} (nodes D) in
  (frontend_candidates st, frontend_violators st).

End Frontend.

(** ** Information holder resource *)

Module IHR.
Import Graph.

(** The four sets the loop fills. *)
Record locals : Type := Locals {
  ihr_candidates : gset (string * string);
  ihr_violators : gset (string * string);
  database_call_violators : gset string;
  database_no_ihr_violators : gset string
}.

(** Lines 166-177: the branch taken when [zero_degree or is_database]. *)
Definition inspect_preds (D : DiGraph) (st : locals) (node : string) : locals :=
  let preds := pred D node in
  if decide (size preds = 1%nat) then
    match elements preds with
    | pred :: _ =>
        if decide (size (succ D pred) = 1%nat) then
          {| ihr_candidates := ihr_candidates st ∪ {[ (pred, node) ]};
             ihr_violators := ihr_violators st;
             database_call_violators := database_call_violators st;
             database_no_ihr_violators := database_no_ihr_violators st ∖ {[ node ]} |}
        else
          {| ihr_candidates := ihr_candidates st;
             ihr_violators := ihr_violators st ∪ {[ (pred, node) ]};
             database_call_violators := database_call_violators st;
             database_no_ihr_violators := database_no_ihr_violators st ∖ {[ node ]} |}
    | [] => st (* not reached: a set of size 1 has a first element *)
    end
  else st.

(** Lines 163-182: one iteration, for [node] with its [out_degree]. *)
Definition body (D : DiGraph) (database_services : gset string)
    (st : locals) (node : string) : locals :=
  let out_degree := out_degree D node in
  let zero_degree := bool_decide (out_degree = 0%nat) in
  let is_database := bool_decide (node ∈ database_services) in
  let st1 := if zero_degree || is_database then inspect_preds D st node else st in
  if negb zero_degree && is_database then
    {| ihr_candidates := ihr_candidates st1;
       ihr_violators := ihr_violators st1;
       database_call_violators := database_call_violators st1 ∪ {[ node ]};
       database_no_ihr_violators := database_no_ihr_violators st1 |}
  else st1.

Definition detect_information_holder_resource (G : MultiDiGraph)
    (database_services : option (gset string))
  : gset (string * string) * gset (string * string) * gset string * gset string :=
  let database_services := default ∅ database_services in
  let D := nx_DiGraph G in
  let st := foldl (body D database_services)
              {| ihr_candidates := ∅; ihr_violators := ∅;
                 database_call_violators := ∅;
                 database_no_ihr_violators := database_services |} (nodes D) in
  (ihr_candidates st, ihr_violators st,
   database_call_violators st, database_no_ihr_violators st).

(** The test of line 165 and of line 166 together. *)
Definition inspected (D : DiGraph) (database_services : gset string)
    (node : string) : Prop :=
  (out_degree D node = 0%nat ∨ node ∈ database_services) ∧
  size (pred D node) = 1%nat.

End IHR.

(** ** The detectors on a store of objects

    Lists, sets and graphs are Python objects that a function can change in
    place ([append], [add], [discard]). To state what a call does to the
    objects of its caller, the same three functions are written here over a
    store that maps references to objects: arguments and results are
    references, [set()], [[]], [.copy()] and [nx.DiGraph(G)] allocate a new
    object, and [append], [add] and [discard] update the object their
    receiver refers to. Tuples, strings and integers are immutable and stay
    plain values. *)

Module Store.
Import Graph.

Definition loc : Type := positive.

Inductive pyobj : Type :=
| PyPipeline (calls : list Bundle.Call)
| PyServiceBundles (l : list Bundle.service_bundle)
| PyEndpointBundles (l : list Bundle.endpoint_bundle)
| PyNames (s : gset string)
| PyPairs (s : gset (string * string))
| PyMultiDiGraph (G : MultiDiGraph)
| PyDiGraph (D : DiGraph).

Abbreviation heap := (gmap loc pyobj).

(** A computation on the store; the store survives an exception. *)
Definition M (A : Type) : Type := heap → result A * heap.

#[global] Instance M_ret : MRet M := λ A a h, (Ok a, h).
#[global] Instance M_bind : MBind M := λ A B f m h,
  match m h with
  | (Ok a, h') => f a h'
  | (Raise e, h') => (Raise e, h')
  end.

Definition raise {A : Type} (e : exn) : M A := λ h, (Raise e, h).

(** A new object gets a reference that is not in use. *)
Definition alloc (o : pyobj) : M loc := λ h,
  let l := fresh (dom h) in (Ok l, <[l := o]> h).
Definition load (l : loc) : M pyobj := λ h,
  match h !! l with
  | Some o => (Ok o, h)
  | None => (Raise DanglingRef, h)
  end.
Definition store (l : loc) (o : pyobj) : M unit := λ h, (Ok tt, <[l := o]> h).

Definition load_pipeline (l : loc) : M (list Bundle.Call) :=
  o ← load l; match o with PyPipeline calls => mret calls | _ => raise TypeError end.
Definition load_service_bundles (l : loc) : M (list Bundle.service_bundle) :=
  o ← load l; match o with PyServiceBundles b => mret b | _ => raise TypeError end.
Definition load_endpoint_bundles (l : loc) : M (list Bundle.endpoint_bundle) :=
  o ← load l; match o with PyEndpointBundles b => mret b | _ => raise TypeError end.
Definition load_names (l : loc) : M (gset string) :=
  o ← load l; match o with PyNames s => mret s | _ => raise TypeError end.
Definition load_pairs (l : loc) : M (gset (string * string)) :=
  o ← load l; match o with PyPairs s => mret s | _ => raise TypeError end.
Definition load_digraph (l : loc) : M DiGraph :=
  o ← load l; match o with PyDiGraph D => mret D | _ => raise TypeError end.

(** [l.append(b)] *)
Definition append_service (l : loc) (b : Bundle.service_bundle) : M unit :=
  bs ← load_service_bundles l; store l (PyServiceBundles (bs ++ [b])).
Definition append_endpoint (l : loc) (b : Bundle.endpoint_bundle) : M unit :=
  bs ← load_endpoint_bundles l; store l (PyEndpointBundles (bs ++ [b])).

(** [s.add(x)], [s.discard(x)], [x in s], [s.copy()] *)
Definition names_add (l : loc) (x : string) : M unit :=
  s ← load_names l; store l (PyNames (s ∪ {[ x ]})).
Definition names_discard (l : loc) (x : string) : M unit :=
  s ← load_names l; store l (PyNames (s ∖ {[ x ]})).
Definition names_contains (l : loc) (x : string) : M bool :=
  s ← load_names l; mret (bool_decide (x ∈ s)).
Definition names_copy (l : loc) : M loc :=
  s ← load_names l; alloc (PyNames s).
Definition pairs_add (l : loc) (x : string * string) : M unit :=
  s ← load_pairs l; store l (PyPairs (s ∪ {[ x ]})).

(** [nx.DiGraph(G)]: a new graph object built from the object [G] refers to. *)
Definition new_DiGraph (G : loc) : M loc :=
  o ← load G;
  match o with
  | PyMultiDiGraph g => alloc (PyDiGraph (nx_DiGraph g))
  | _ => raise TypeError
  end.

(** The items [D.in_degree()] and [D.out_degree()] iterate over. *)
Definition in_degree_view (D : loc) : M (list (string * nat)) :=
  d ← load_digraph D; mret ((λ n, (n, in_degree d n)) <$> nodes d).
Definition out_degree_view (D : loc) : M (list (string * nat)) :=
  d ← load_digraph D; mret ((λ n, (n, out_degree d n)) <$> nodes d).

(** A [for] loop whose body only has effects. *)
Fixpoint for_each {A : Type} (body : A → M unit) (items : list A) : M unit :=
  match items with
  | [] => mret tt
  | x :: rest => body x;; for_each body rest
  end.

(** The locals of [detect_request_bundle] that hold immutable values. *)
Record bundle_locals : Type := BundleLocals {
  last_call_service : option Bundle.service_key;
  last_call_endpoint : option Bundle.endpoint_key;
  count_service : Z;
  count_endpoint : Z
}.

(** Lines 48-57, with the list [bundles_service] in the store. *)
Definition step_service (bundles_service : loc) (threshold_service : Z)
    (current_call_service : Bundle.service_key) (st : bundle_locals)
  : M bundle_locals :=
  if decide (Some current_call_service = last_call_service st) then
    mret {| last_call_service := last_call_service st;
            last_call_endpoint := last_call_endpoint st;
            count_service := count_service st + 1;
            count_endpoint := count_endpoint st |}
  else
    (if decide (threshold_service ≤ count_service st) then
       match Bundle.star_service (last_call_service st) (count_service st) with
       | Ok b => append_service bundles_service b
       | Raise e => raise e
       end
     else mret tt);;
    mret {| last_call_service := Some current_call_service;
            last_call_endpoint := last_call_endpoint st;
            count_service := 1;
            count_endpoint := count_endpoint st |}.

(** Lines 59-68, with the list [bundles_endpoint] in the store. *)
Definition step_endpoint (bundles_endpoint : loc) (threshold_endpoint : Z)
    (current_call_endpoint : Bundle.endpoint_key) (st : bundle_locals)
  : M bundle_locals :=
  if decide (Some current_call_endpoint = last_call_endpoint st) then
    mret {| last_call_service := last_call_service st;
            last_call_endpoint := last_call_endpoint st;
            count_service := count_service st;
            count_endpoint := count_endpoint st + 1 |}
  else
    (if decide (threshold_endpoint ≤ count_endpoint st) then
       match Bundle.star_endpoint (last_call_endpoint st) (count_endpoint st) with
       | Ok b => append_endpoint bundles_endpoint b
       | Raise e => raise e
       end
     else mret tt);;
    mret {| last_call_service := last_call_service st;
            last_call_endpoint := Some current_call_endpoint;
            count_service := count_service st;
            count_endpoint := 1 |}.

(** Lines 45-68: one iteration of the loop. *)
Definition bundle_body (bundles_service bundles_endpoint : loc)
    (threshold_service threshold_endpoint : Z)
    (st : bundle_locals) (c : Bundle.Call) : M bundle_locals :=
  st1 ← step_service bundles_service threshold_service (Bundle.call_service c) st;
  step_endpoint bundles_endpoint threshold_endpoint (Bundle.call_endpoint c) st1.

Fixpoint bundle_loop (bundles_service bundles_endpoint : loc)
    (threshold_service threshold_endpoint : Z)
    (st : bundle_locals) (calls : list Bundle.Call) : M unit :=
  match calls with
  | [] => mret tt
  | c :: rest =>
      st' ← bundle_body bundles_service bundles_endpoint
              threshold_service threshold_endpoint st c;
      bundle_loop bundles_service bundles_endpoint
        threshold_service threshold_endpoint st' rest
  end.

Definition detect_request_bundle (pipeline : loc)
    (threshold_service threshold_endpoint : Z) : M (loc * loc) :=
  bundles_service ← alloc (PyServiceBundles []);
  bundles_endpoint ← alloc (PyEndpointBundles []);
  calls ← load_pipeline pipeline;
  bundle_loop bundles_service bundles_endpoint threshold_service threshold_endpoint
    {| last_call_service := None; last_call_endpoint := None;
       count_service := 1; count_endpoint := 1 |} calls;;
  mret (bundles_service, bundles_endpoint).

(** Lines 108-117: one iteration, for the item [(node, in_degree)]. *)
Definition frontend_body (D frontend_services frontend_candidates
    frontend_violators : loc) (item : string * nat) : M unit :=
  let '(node, in_degree) := item in
  if decide (in_degree = 0%nat) then
    d ← load_digraph D;
    if decide (0 < out_degree d node)%nat
    then names_add frontend_candidates node
    else mret tt
  else
    b ← names_contains frontend_services node;
    if b : bool then names_add frontend_violators node else mret tt.

(** Lines 99-119. *)
Definition detect_frontend_integration (G : loc) (frontend_services : option loc)
  : M (loc * loc) :=
  frontend_services ←
    match frontend_services with
    | None => alloc (PyNames ∅)
    | Some l => mret l
    end;
  D ← new_DiGraph G;
  frontend_candidates ← alloc (PyNames ∅);
  frontend_violators ← alloc (PyNames ∅);
  view ← in_degree_view D;
  for_each (frontend_body D frontend_services frontend_candidates
              frontend_violators) view;;
  mret (frontend_candidates, frontend_violators).

(** Lines 166-177. *)
Definition inspect_preds (D ihr_candidates ihr_violators database_no_ihr_violators : loc)
    (node : string) : M unit :=
  d ← load_digraph D;
  let preds := pred d node in
  if decide (size preds = 1%nat) then
    match elements preds with
    | pred :: _ =>
        d' ← load_digraph D;
        (if decide (size (succ d' pred) = 1%nat)
         then pairs_add ihr_candidates (pred, node)
         else pairs_add ihr_violators (pred, node));;
        names_discard database_no_ihr_violators node
    | [] => mret tt
    end
  else mret tt.

(** Lines 163-182: one iteration, for the item [(node, out_degree)]. *)
Definition ihr_body (D database_services ihr_candidates ihr_violators
    database_call_violators database_no_ihr_violators : loc)
    (item : string * nat) : M unit :=
  let '(node, out_degree) := item in
  let zero_degree := bool_decide (out_degree = 0%nat) in
  is_database ← names_contains database_services node;
  (if zero_degree || is_database
   then inspect_preds D ihr_candidates ihr_violators database_no_ihr_violators node
   else mret tt);;
  if negb zero_degree && is_database
  then names_add database_call_violators node
  else mret tt.

(** Lines 153-188. *)
Definition detect_information_holder_resource (G : loc)
    (database_services : option loc) : M (loc * loc * loc * loc) :=
  database_services ←
    match database_services with
    | None => alloc (PyNames ∅)
    | Some l => mret l
    end;
  D ← new_DiGraph G;
  ihr_candidates ← alloc (PyPairs ∅);
  ihr_violators ← alloc (PyPairs ∅);
  database_call_violators ← alloc (PyNames ∅);
  database_no_ihr_violators ← names_copy database_services;
  view ← out_degree_view D;
  for_each (ihr_body D database_services ihr_candidates ihr_violators
              database_call_violators database_no_ihr_violators) view;;
  mret (ihr_candidates, ihr_violators,
        database_call_violators, database_no_ihr_violators).

(** The object a reference leads to, read as a set of names, as a set of
    pairs or as a list of bundles. *)
Definition names_at (h : heap) (l : loc) : option (gset string) :=
  match h !! l with Some (PyNames s) => Some s | _ => None end.
Definition pairs_at (h : heap) (l : loc) : option (gset (string * string)) :=
  match h !! l with Some (PyPairs s) => Some s | _ => None end.
Definition service_bundles_at (h : heap) (l : loc)
  : option (list Bundle.service_bundle) :=
  match h !! l with Some (PyServiceBundles b) => Some b | _ => None end.
Definition endpoint_bundles_at (h : heap) (l : loc)
  : option (list Bundle.endpoint_bundle) :=
  match h !! l with Some (PyEndpointBundles b) => Some b | _ => None end.

(** *** What the store holds for the values of the detectors *)

(** What a reference passed for an optional set stands for. *)
Definition names_arg (h : heap) (arg : option loc) (value : option (gset string))
  : Prop :=
  match arg, value with
  | None, None => True
  | Some l, Some s => h !! l = Some (PyNames s)
  | _, _ => False
  end.

(** The four sets of [st] are the objects at the four references. *)
Definition ihr_repr (lc lv lcv lno : loc) (st : IHR.locals) (h : heap) : Prop :=
  h !! lc = Some (PyPairs (IHR.ihr_candidates st)) ∧
  h !! lv = Some (PyPairs (IHR.ihr_violators st)) ∧
  h !! lcv = Some (PyNames (IHR.database_call_violators st)) ∧
  h !! lno = Some (PyNames (IHR.database_no_ihr_violators st)).

(** The locals of the loop that are plain values. *)
Definition lower (st : Bundle.locals) : bundle_locals :=
  {| last_call_service := Bundle.last_call_service st;
     last_call_endpoint := Bundle.last_call_endpoint st;
     count_service := Bundle.count_service st;
     count_endpoint := Bundle.count_endpoint st |}.

(** The two lists of [st] are the objects at the two references. *)
Definition bundle_repr (lbs lbe : loc) (st : Bundle.locals) (h : heap) : Prop :=
  h !! lbs = Some (PyServiceBundles (Bundle.bundles_service st)) ∧
  h !! lbe = Some (PyEndpointBundles (Bundle.bundles_endpoint st)).

End Store.

(** ** Runs of a pipeline

    What the specification calls a run: a maximal block of consecutive calls
    with the same key. [runs] lists the runs of a list of keys in order, each
    with its key and its length. *)

Module Runs.
Section runs.
Context {K : Type} `{EqDecision K}.

(** The runs of [keys] when a run of [count] keys [last] comes before them. *)
Fixpoint runs_from (last : K) (count : Z) (keys : list K) : list (K * Z) :=
  match keys with
  | [] => [(last, count)]
  | k :: rest =>
      if decide (k = last) then runs_from last (count + 1) rest
      else (last, count) :: runs_from k 1 rest
  end.

Definition runs (keys : list K) : list (K * Z) :=
  match keys with
  | [] => []
  | k :: rest => runs_from k 1 rest
  end.

(** All runs but the trailing one: the runs that a different key closed. *)
Definition closed_runs (keys : list K) : list (K * Z) := removelast (runs keys).

(** The runs whose length meets the threshold. *)
Definition meeting (threshold : Z) (rs : list (K * Z)) : list (K * Z) :=
  filter (λ r : K * Z, threshold ≤ r.2) rs.

(** The finding a key [k] closes when it follows a run of [count] keys [last]. *)
Definition closing (threshold : Z) (last : K) (count : Z) (k : K) : list (K * Z) :=
  if decide (k = last) then []
  else if decide (threshold ≤ count) then [(last, count)] else [].

(** The findings of the runs closed after a run of [count] keys [last]. *)
Definition emitted (threshold : Z) (last : K) (count : Z) (keys : list K)
  : list (K * Z) :=
  meeting threshold (removelast (runs_from last count keys)).

(** Two runs in a row have different keys, and a run is not empty. *)
Inductive runs_ok : list (K * Z) → Prop :=
| runs_ok_nil : runs_ok []
| runs_ok_one k n : 0 < n → runs_ok [(k, n)]
| runs_ok_cons k n k' n' rs :
    0 < n → k ≠ k' → runs_ok ((k', n') :: rs) → runs_ok ((k, n) :: (k', n') :: rs).

(** Writing every run out again. *)
Definition expand (rs : list (K * Z)) : list K :=
  r ← rs; replicate (Z.to_nat r.2) r.1.

(** The lengths of a list of runs, added up. *)
Definition total (rs : list (K * Z)) : Z := foldr (λ r acc, r.2 + acc) 0 rs.

End runs.

Definition service_finding (r : Bundle.service_key * Z) : Bundle.service_bundle :=
  let '((f, t), n) := r in (f, t, n).
Definition endpoint_finding (r : Bundle.endpoint_key * Z) : Bundle.endpoint_bundle :=
  let '((f, t, e), n) := r in (f, t, e, n).

End Runs.

(** ** Calls of a multigraph *)

(** [u] calls [v]: the multigraph has an edge instance from [u] to [v]. *)
Definition calls (G : Graph.MultiDiGraph) (u v : string) : Prop :=
  ∃ key, (u, v, key) ∈ Graph.mg_edges G.

(** [p] is the only caller of [n]. *)
Definition sole_caller (G : Graph.MultiDiGraph) (p n : string) : Prop :=
  calls G p n ∧ ∀ u, calls G u n → u = p.

(** ** The notifications

    Every finding is also written to standard output with [print], one line
    per call of [print]. The functions of this module are the three
    detectors once more, now together with the lines they write; the lines
    are the f-strings of the source, where a string is written as it is, an
    integer in decimal and [None] as [None]. *)

Module Notify.
Import Graph.

(** The outcome of a computation and the lines it wrote, which stay written
    when an exception is raised. *)
Definition Out (A : Type) : Type := result A * list string.

#[global] Instance Out_ret : MRet Out := λ A a, (Ok a, []).
#[global] Instance Out_bind : MBind Out := λ A B f m,
  match m with
  | (Ok a, out) => let '(r, out') := f a in (r, out ++ out')
  | (Raise e, out) => (Raise e, out)
  end.

Definition print (line : string) : Out unit := (Ok tt, [line]).
Definition lift {A : Type} (r : result A) : Out A := (r, []).

(** A [for] loop that updates the locals [st]. *)
Fixpoint for_fold {S A : Type} (body : S → A → Out S) (st : S) (items : list A)
  : Out S :=
  match items with
  | [] => mret st
  | x :: rest => st' ← body st x; for_fold body st' rest
  end.

(** [{user}] in an f-string. *)
Definition str_user (user : option string) : string := default "None" user.

(** Lines 53-55, for the bundle made of [last_call_service] and
    [count_service]. *)
Definition service_line (user : option string) (b : Bundle.service_bundle)
  : string :=
  let '(from_service, to_service, count) := b in
  str_user user +:+ ": Service-level request bundle detected between "
  +:+ from_service +:+ " and " +:+ to_service +:+ " "
  +:+ "with count " +:+ pretty count.

(** Lines 64-66, for the bundle made of [last_call_endpoint] and
    [count_endpoint]; nothing separates the receiver from the endpoint. *)
Definition endpoint_line (user : option string) (b : Bundle.endpoint_bundle)
  : string :=
  let '(from_service, to_service, endpoint, count) := b in
  str_user user +:+ ": Endpoint-level request bundle detected between "
  +:+ from_service +:+ " and " +:+ to_service
  +:+ endpoint +:+ " with count " +:+ pretty count.

(** Lines 48-57. *)
Definition step_service (user : option string) (threshold_service : Z)
    (current_call_service : Bundle.service_key) (st : Bundle.locals)
  : Out Bundle.locals :=
  if decide (Some current_call_service = Bundle.last_call_service st) then
    mret {| Bundle.bundles_service := Bundle.bundles_service st;
            Bundle.bundles_endpoint := Bundle.bundles_endpoint st;
            Bundle.last_call_service := Bundle.last_call_service st;
            Bundle.last_call_endpoint := Bundle.last_call_endpoint st;
            Bundle.count_service := Bundle.count_service st + 1;
            Bundle.count_endpoint := Bundle.count_endpoint st |}
  else
    bs ← (if decide (threshold_service ≤ Bundle.count_service st) then
            b ← lift (Bundle.star_service (Bundle.last_call_service st)
                        (Bundle.count_service st));
            print (service_line user b);;
            mret (Bundle.bundles_service st ++ [b])
          else mret (Bundle.bundles_service st));
    mret {| Bundle.bundles_service := bs;
            Bundle.bundles_endpoint := Bundle.bundles_endpoint st;
            Bundle.last_call_service := Some current_call_service;
            Bundle.last_call_endpoint := Bundle.last_call_endpoint st;
            Bundle.count_service := 1;
            Bundle.count_endpoint := Bundle.count_endpoint st |}.

(** Lines 59-68. *)
Definition step_endpoint (user : option string) (threshold_endpoint : Z)
    (current_call_endpoint : Bundle.endpoint_key) (st : Bundle.locals)
  : Out Bundle.locals :=
  if decide (Some current_call_endpoint = Bundle.last_call_endpoint st) then
    mret {| Bundle.bundles_service := Bundle.bundles_service st;
            Bundle.bundles_endpoint := Bundle.bundles_endpoint st;
            Bundle.last_call_service := Bundle.last_call_service st;
            Bundle.last_call_endpoint := Bundle.last_call_endpoint st;
            Bundle.count_service := Bundle.count_service st;
            Bundle.count_endpoint := Bundle.count_endpoint st + 1 |}
  else
    be ← (if decide (threshold_endpoint ≤ Bundle.count_endpoint st) then
            b ← lift (Bundle.star_endpoint (Bundle.last_call_endpoint st)
                        (Bundle.count_endpoint st));
            print (endpoint_line user b);;
            mret (Bundle.bundles_endpoint st ++ [b])
          else mret (Bundle.bundles_endpoint st));
    mret {| Bundle.bundles_service := Bundle.bundles_service st;
            Bundle.bundles_endpoint := be;
            Bundle.last_call_service := Bundle.last_call_service st;
            Bundle.last_call_endpoint := Some current_call_endpoint;
            Bundle.count_service := Bundle.count_service st;
            Bundle.count_endpoint := 1 |}.

(** Lines 45-68. *)
Definition bundle_body (user : option string)
    (threshold_service threshold_endpoint : Z)
    (st : Bundle.locals) (c : Bundle.Call) : Out Bundle.locals :=
  st1 ← step_service user threshold_service (Bundle.call_service c) st;
  step_endpoint user threshold_endpoint (Bundle.call_endpoint c) st1.

(** Lines 39-70; [user] is the label: a caller that gives none gets the
    default ['NoUser'], a caller that gives [None] gets [None] written. *)
Definition detect_request_bundle (pipeline : list Bundle.Call)
    (threshold_service threshold_endpoint : Z) (user : option string)
  : Out (list Bundle.service_bundle * list Bundle.endpoint_bundle) :=
  st ← for_fold (bundle_body user threshold_service threshold_endpoint)
         Bundle.init pipeline;
  mret (Bundle.bundles_service st, Bundle.bundles_endpoint st).

(** Lines 111-112; the two pieces of the literal leave two spaces. *)
Definition candidate_line (user : option string) (node : string) : string :=
  str_user user +:+ ": Frontend Integration - potential frontend "
  +:+ " service '" +:+ node +:+ "' found.".

(** Lines 115-117. *)
Definition violator_line (user : option string) (node : string) (in_degree : nat)
  : string :=
  str_user user +:+ ": Frontend Integration Violation - service '" +:+ node +:+ "' "
  +:+ "is designated as frontend service but has incoming calls "
  +:+ "(in_degree=" +:+ pretty in_degree +:+ ")".

(** Lines 108-117. *)
Definition frontend_body (D : DiGraph) (frontend_services : gset string)
    (user : option string) (st : Frontend.locals) (node : string)
  : Out Frontend.locals :=
  let in_degree := in_degree D node in
  if decide (in_degree = 0%nat) then
    if decide (0 < out_degree D node)%nat then
      print (candidate_line user node);;
      mret {| Frontend.frontend_candidates :=
                Frontend.frontend_candidates st ∪ {[ node ]};
              Frontend.frontend_violators := Frontend.frontend_violators st |}
    else mret st
  else if decide (node ∈ frontend_services) then
    print (violator_line user node in_degree);;
    mret {| Frontend.frontend_candidates := Frontend.frontend_candidates st;
            Frontend.frontend_violators :=
              Frontend.frontend_violators st ∪ {[ node ]} |}
  else mret st.

(** Lines 99-119: line 100 replaces a missing label by ['NoUser']. *)
Definition detect_frontend_integration (G : MultiDiGraph)
    (frontend_services : option (gset string)) (user : option string)
  : Out (gset string * gset string) :=
  let frontend_services := default ∅ frontend_services in
  let user := Some (default "NoUser" user) in
  let D := nx_DiGraph G in
  st ← for_fold (frontend_body D frontend_services user)
         {| Frontend.frontend_candidates := ∅;
            Frontend.frontend_violators := ∅ |} (nodes D);
  mret (Frontend.frontend_candidates st, Frontend.frontend_violators st).

(** Lines 170-171. *)
Definition ihr_line (user : option string) (pair : string * string) : string :=
  let '(pred, node) := pair in
  str_user user +:+ ": Information Holder Resource - '" +:+ pred +:+ "' is a"
  +:+ " potential IHR for '" +:+ node +:+ "'".

(** Lines 174-176, with the spelling of the source. *)
Definition ihr_violation_line (user : option string) (pair : string * string)
  : string :=
  let '(pred, node) := pair in
  str_user user +:+ ": Information Holder Resouce Violation - "
  +:+ "'" +:+ node +:+ "' is only accessed through '" +:+ pred +:+ "', but "
  +:+ "'" +:+ pred +:+ "' calls other services as well.".

(** Lines 180-182; nothing separates the text from the parenthesis. *)
Definition call_violation_line (user : option string) (node : string)
    (out_degree : nat) : string :=
  str_user user +:+ ": Information Holder Resource Violation - '" +:+ node +:+ "'"
  +:+ " is designated as database service but has outgoing calls"
  +:+ "(out_degree=" +:+ pretty out_degree +:+ ")".

(** Lines 185-186. *)
Definition no_ihr_line (user : option string) (service : string) : string :=
  str_user user +:+ ": Information Holder Resource Violation - '" +:+ service +:+ "' "
  +:+ "is designated as database service but no IHR detected.".

(** Lines 166-177. *)
Definition inspect_preds (D : DiGraph) (user : option string)
    (st : IHR.locals) (node : string) : Out IHR.locals :=
  let preds := pred D node in
  if decide (size preds = 1%nat) then
    match elements preds with
    | pred :: _ =>
        if decide (size (succ D pred) = 1%nat) then
          print (ihr_line user (pred, node));;
          mret {| IHR.ihr_candidates := IHR.ihr_candidates st ∪ {[ (pred, node) ]};
                  IHR.ihr_violators := IHR.ihr_violators st;
                  IHR.database_call_violators := IHR.database_call_violators st;
                  IHR.database_no_ihr_violators :=
                    IHR.database_no_ihr_violators st ∖ {[ node ]} |}
        else
          print (ihr_violation_line user (pred, node));;
          mret {| IHR.ihr_candidates := IHR.ihr_candidates st;
                  IHR.ihr_violators := IHR.ihr_violators st ∪ {[ (pred, node) ]};
                  IHR.database_call_violators := IHR.database_call_violators st;
                  IHR.database_no_ihr_violators :=
                    IHR.database_no_ihr_violators st ∖ {[ node ]} |}
    | [] => mret st
    end
  else mret st.

(** Lines 163-182. *)
Definition ihr_body (D : DiGraph) (database_services : gset string)
    (user : option string) (st : IHR.locals) (node : string) : Out IHR.locals :=
  let out_degree := out_degree D node in
  let zero_degree := bool_decide (out_degree = 0%nat) in
  let is_database := bool_decide (node ∈ database_services) in
  st1 ← (if zero_degree || is_database then inspect_preds D user st node
         else mret st);
  if negb zero_degree && is_database then
    print (call_violation_line user node out_degree);;
    mret {| IHR.ihr_candidates := IHR.ihr_candidates st1;
            IHR.ihr_violators := IHR.ihr_violators st1;
            IHR.database_call_violators :=
              IHR.database_call_violators st1 ∪ {[ node ]};
            IHR.database_no_ihr_violators := IHR.database_no_ihr_violators st1 |}
  else mret st1.

(** Lines 153-188. The order in which [for service in ...] of line 184 goes
    through a set is not fixed by Python; [set_order] is that order. *)
Definition detect_information_holder_resource
    (set_order : gset string → list string) (G : MultiDiGraph)
    (database_services : option (gset string)) (user : option string)
  : Out (gset (string * string) * gset (string * string) *
         gset string * gset string) :=
  let database_services := default ∅ database_services in
  let D := nx_DiGraph G in
  st ← for_fold (ihr_body D database_services user)
         {| IHR.ihr_candidates := ∅; IHR.ihr_violators := ∅;
            IHR.database_call_violators := ∅;
            IHR.database_no_ihr_violators := database_services |} (nodes D);
  for_fold (λ _ service, print (no_ihr_line user service)) tt
    (set_order (IHR.database_no_ihr_violators st));;
  mret (IHR.ihr_candidates st, IHR.ihr_violators st,
        IHR.database_call_violators st, IHR.database_no_ihr_violators st).

End Notify.

(** ** The lines of one iteration *)

Module NotifyLines.
Import Graph.

(** [out] is [xs] and [ys] shuffled together, each in its order. *)
Definition interleaves {A : Type} (out xs ys : list A) : Prop :=
  out ≡ₚ xs ++ ys ∧ xs `sublist_of` out ∧ ys `sublist_of` out.

(** What one iteration of the loop of [detect_frontend_integration] writes. *)
Definition frontend_lines (D : DiGraph) (frontend_services : gset string)
    (user : option string) (node : string) : list string :=
  if decide (in_degree D node = 0%nat) then
    if decide (0 < out_degree D node)%nat
    then [Notify.candidate_line user node] else []
  else if decide (node ∈ frontend_services)
       then [Notify.violator_line user node (in_degree D node)] else [].

(** The first predecessor of a node. *)
Definition first_pred (D : DiGraph) (node : string) : string :=
  default "" (head (elements (pred D node))).

(** What one iteration of the loop of [detect_information_holder_resource]
    writes. *)
Definition ihr_lines (D : DiGraph) (database_services : gset string)
    (user : option string) (node : string) : list string :=
  (if decide ((out_degree D node = 0%nat ∨ node ∈ database_services) ∧
              size (pred D node) = 1%nat)
   then [if decide (size (succ D (first_pred D node)) = 1%nat)
         then Notify.ihr_line user (first_pred D node, node)
         else Notify.ihr_violation_line user (first_pred D node, node)]
   else []) ++
  (if decide (out_degree D node ≠ 0%nat ∧ node ∈ database_services)
   then [Notify.call_violation_line user node (out_degree D node)] else []).

End NotifyLines.

(** ** Sample inputs *)

(** A pipeline of three calls [A -> B] on one endpoint. *)
Definition three_calls : list Bundle.Call :=
  [(1, "A", "B", "/x"); (2, "A", "B", "/x"); (3, "A", "B", "/x")].

(** A call graph: [X] calls [P] (twice) and [Q]; [P] calls [S]. *)
Definition G1 : Graph.MultiDiGraph :=
  {| Graph.mg_nodes := ["X"; "P"; "S"; "Q"];
     Graph.mg_edges :=
       [("X", "P", "a"); ("X", "P", "b"); ("P", "S", "c"); ("X", "Q", "d")] |}.

(** A call graph: [S] calls [P], and [P] calls [S]. *)
Definition G2 : Graph.MultiDiGraph :=
  {| Graph.mg_nodes := ["P"; "S"];
     Graph.mg_edges := [("P", "S", "a"); ("S", "P", "b")] |}.

(** A store with a call graph, a set of declared services and a pipeline. *)
Definition h1 : gmap Store.loc Store.pyobj :=
  {[ 1%positive := Store.PyMultiDiGraph G1;
     2%positive := Store.PyNames {[ "S"; "Z" ]};
     3%positive := Store.PyPipeline three_calls ]}.

(** A pipeline with a closed service run of three calls, and a trailing run
    of two. *)
Definition mixed_calls : list Bundle.Call :=
  [(1, "A", "B", "/x"); (2, "A", "B", "/x"); (3, "A", "B", "/y");
   (4, "C", "D", "/z"); (5, "C", "D", "/z")].

(** The calls of [G1] in another order, without the repeated one, with other
    keys and with a service that takes part in no call. *)
Definition G1' : Graph.MultiDiGraph :=
  {| Graph.mg_nodes := ["Q"; "S"; "P"; "X"; "W"];
     Graph.mg_edges := [("X", "Q", "0"); ("P", "S", "0"); ("X", "P", "0")] |}.

(** * Properties *)

(** ** Runs *)

Section runs_facts.
Import Runs.
Context {K : Type} `{EqDecision K}.

Lemma removelast_cons_ne {A : Type} (x : A) (l : list A) :
  l ≠ [] → removelast (x :: l) = x :: removelast l.
Proof. by destruct l. Qed.

Lemma runs_from_not_nil (last : K) (count : Z) (keys : list K) :
  runs_from last count keys ≠ [].
Proof.
  revert last count. induction keys as [|k rest IH]; intros last count; simpl.
  - done.
  - case_decide; [apply IH|done].
Qed.

(** Writing out the runs gives the keys back. *)
Lemma expand_runs_from (last : K) (count : Z) (keys : list K) :
  0 ≤ count →
  expand (runs_from last count keys) = replicate (Z.to_nat count) last ++ keys.
Proof.
  revert last count. induction keys as [|k rest IH]; intros last count Hc; simpl.
  - unfold expand. simpl. done.
  - case_decide as Hk.
    + subst k. rewrite IH by lia. rewrite Z2Nat.inj_add by lia.
      rewrite replicate_add. simpl. by rewrite <- app_assoc.
    + unfold expand in *. simpl. rewrite IH by lia. done.
Qed.

Lemma expand_runs (keys : list K) : expand (runs keys) = keys.
Proof.
  destruct keys as [|k rest]; [done|]. simpl.
  rewrite expand_runs_from by lia. done.
Qed.

Lemma runs_from_ok (last : K) (count : Z) (keys : list K) :
  0 < count →
  runs_ok (runs_from last count keys) ∧
  ∃ n rs, runs_from last count keys = (last, n) :: rs.
Proof.
  revert last count. induction keys as [|k rest IH]; intros last count Hc; simpl.
  - split; [by constructor|eauto].
  - case_decide as Hk.
    + apply IH. lia.
    + split; [|eauto]. destruct (IH k 1) as [Hok (n & rs & Heq)]; [lia|].
      rewrite Heq in *. constructor; [done|congruence|done].
Qed.

Lemma runs_maximal (keys : list K) : runs_ok (runs keys).
Proof.
  destruct keys as [|k rest]; [constructor|]. simpl. apply runs_from_ok. lia.
Qed.

Lemma emitted_cons (threshold : Z) (last : K) (count : Z) (k : K) (rest : list K) :
  emitted threshold last count (k :: rest) =
  closing threshold last count k ++
  emitted threshold k (if decide (k = last) then count + 1 else 1) rest.
Proof.
  unfold emitted, closing. simpl. case_decide as Hk; [by subst k|].
  rewrite removelast_cons_ne by apply runs_from_not_nil.
  unfold meeting. rewrite filter_cons. simpl. by case_decide.
Qed.

(** A run that goes on to the end of the keys is one run, however long. *)
Lemma runs_from_all_same (last : K) (count : Z) (keys : list K) :
  Forall (λ k, k = last) keys →
  runs_from last count keys = [(last, count + Z.of_nat (length keys))].
Proof.
  revert count. induction keys as [|k rest IH]; intros count Hall; simpl.
  - do 2 f_equal. lia.
  - apply Forall_cons in Hall as [-> Hall]. rewrite decide_True by done.
    rewrite IH by done. do 2 f_equal. lia.
Qed.

Lemma closed_runs_from_trailing (last : K) (count : Z) (l : list K) (k : K)
    (ks : list K) :
  Forall (λ k', k' = k) ks →
  removelast (runs_from last count (l ++ k :: ks)) =
  removelast (runs_from last count (l ++ [k])).
Proof.
  intros Hall. revert last count.
  induction l as [|a l IH]; intros last count; simpl.
  - case_decide as Hk.
    + subst k. by rewrite runs_from_all_same.
    + by rewrite runs_from_all_same.
  - case_decide; [apply IH|].
    rewrite !removelast_cons_ne by apply runs_from_not_nil. by rewrite IH.
Qed.

(** Making the trailing run longer closes no run. *)
Lemma closed_runs_trailing (l : list K) (k : K) (ks : list K) :
  Forall (λ k', k' = k) ks →
  closed_runs (l ++ k :: ks) = closed_runs (l ++ [k]).
Proof.
  intros Hall. unfold closed_runs. destruct l as [|a l]; simpl.
  - by rewrite runs_from_all_same.
  - by apply closed_runs_from_trailing.
Qed.

End runs_facts.

(** ** Request bundles: the loop *)

Section bundle_facts.
Import Bundle Runs.
Variables (threshold_service threshold_endpoint : Z).

Abbreviation loop := (Bundle.loop threshold_service threshold_endpoint).
Abbreviation body := (Bundle.body threshold_service threshold_endpoint).

Lemma step_service_started (st : locals) (ks k : service_key) :
  last_call_service st = Some ks →
  step_service threshold_service k st =
  Ok {| bundles_service :=
          bundles_service st ++
          (service_finding <$> closing threshold_service ks (count_service st) k);
        bundles_endpoint := bundles_endpoint st;
        last_call_service := Some k;
        last_call_endpoint := last_call_endpoint st;
        count_service := if decide (k = ks) then count_service st + 1 else 1;
        count_endpoint := count_endpoint st |}.
Proof.
  intros Hs. unfold step_service, closing. rewrite Hs. destruct ks as [f t].
  destruct (decide (k = (f, t))) as [->|Hk].
  - rewrite decide_True by done. simpl. by rewrite app_nil_r.
  - rewrite decide_False by congruence. simpl.
    case_decide; simpl; by rewrite ?app_nil_r.
Qed.

Lemma step_endpoint_started (st : locals) (ke k : endpoint_key) :
  last_call_endpoint st = Some ke →
  step_endpoint threshold_endpoint k st =
  Ok {| bundles_service := bundles_service st;
        bundles_endpoint :=
          bundles_endpoint st ++
          (endpoint_finding <$> closing threshold_endpoint ke (count_endpoint st) k);
        last_call_service := last_call_service st;
        last_call_endpoint := Some k;
        count_service := count_service st;
        count_endpoint := if decide (k = ke) then count_endpoint st + 1 else 1 |}.
Proof.
  intros He. unfold step_endpoint, closing. rewrite He.
  destruct ke as [[f t] e].
  destruct (decide (k = (f, t, e))) as [->|Hk].
  - rewrite decide_True by done. simpl. by rewrite app_nil_r.
  - rewrite decide_False by congruence. simpl.
    case_decide; simpl; by rewrite ?app_nil_r.
Qed.

(** Once both previous keys are set, the loop cannot raise, and it appends
    the findings of the runs it closes. *)
Lemma loop_started (l : list Call) (st : locals)
    (ks : service_key) (ke : endpoint_key) :
  last_call_service st = Some ks →
  last_call_endpoint st = Some ke →
  ∃ st', loop st l = Ok st' ∧
    bundles_service st' = bundles_service st ++
      (service_finding <$>
         emitted threshold_service ks (count_service st) (call_service <$> l)) ∧
    bundles_endpoint st' = bundles_endpoint st ++
      (endpoint_finding <$>
         emitted threshold_endpoint ke (count_endpoint st) (call_endpoint <$> l)).
Proof.
  revert st ks ke. induction l as [|c l IH]; intros st ks ke Hs He.
  - exists st. simpl. by rewrite !app_nil_r.
  - simpl. unfold Bundle.body.
    rewrite (step_service_started st ks) by done. simpl.
    rewrite (step_endpoint_started _ ke) by done. simpl.
    edestruct IH as (st' & Hl & Hbs & Hbe); [| |rewrite Hl]; [reflexivity..|].
    exists st'. split; [done|]. rewrite Hbs, Hbe. simpl.
    by rewrite !emitted_cons, !fmap_app, !app_assoc.
Qed.

(** The first call: with both thresholds at least 2 nothing is emitted and
    both previous keys are set. *)
Lemma body_init_ok (c : Call) :
  2 ≤ threshold_service → 2 ≤ threshold_endpoint →
  body init c =
  Ok {| bundles_service := []; bundles_endpoint := [];
        last_call_service := Some (call_service c);
        last_call_endpoint := Some (call_endpoint c);
        count_service := 1; count_endpoint := 1 |}.
Proof.
  intros Hs He. unfold Bundle.body, step_service, step_endpoint. simpl.
  rewrite (decide_False (P := threshold_service ≤ 1)) by lia. simpl.
  rewrite (decide_False (P := threshold_endpoint ≤ 1)) by lia. done.
Qed.

(** The first call: a threshold of 1 or less makes the loop unpack [None]. *)
Lemma body_init_raise (c : Call) :
  threshold_service ≤ 1 ∨ threshold_endpoint ≤ 1 →
  body init c = Raise TypeError.
Proof.
  intros H. unfold Bundle.body, step_service, step_endpoint. simpl.
  destruct (decide (threshold_service ≤ 1)); simpl; [done|].
  rewrite (decide_True (P := threshold_endpoint ≤ 1)) by lia. done.
Qed.

Lemma detect_request_bundle_ok (pipeline : list Call) :
  2 ≤ threshold_service → 2 ≤ threshold_endpoint →
  detect_request_bundle pipeline threshold_service threshold_endpoint =
  Ok (service_finding <$>
        meeting threshold_service (closed_runs (call_service <$> pipeline)),
      endpoint_finding <$>
        meeting threshold_endpoint (closed_runs (call_endpoint <$> pipeline))).
Proof.
  intros Hs He. unfold detect_request_bundle.
  destruct pipeline as [|c rest]; [done|]. simpl.
  rewrite body_init_ok by done. simpl.
  edestruct loop_started as (st' & Hl & Hbs & Hbe); [| |rewrite Hl];
    [reflexivity..|]. simpl. by rewrite Hbs, Hbe.
Qed.

Lemma detect_request_bundle_raise (c : Call) (rest : list Call) :
  threshold_service ≤ 1 ∨ threshold_endpoint ≤ 1 →
  detect_request_bundle (c :: rest) threshold_service threshold_endpoint =
  Raise TypeError.
Proof.
  intros H. unfold detect_request_bundle. simpl.
  by rewrite body_init_raise.
Qed.

End bundle_facts.

(** ** The claims on [detect_request_bundle] *)

Section bundle_claims.
Import Bundle Runs.

(** C1. The findings are those of the closed runs, the runs that a new,
    different key ended: the run that reaches the end of the pipeline is not
    among them whatever its length, and making it longer changes neither
    list. *)
Theorem trailing_run_never_emitted (pipeline : list Call)
    (threshold_service threshold_endpoint : Z) :
  (∀ bs be,
     detect_request_bundle pipeline threshold_service threshold_endpoint
       = Ok (bs, be) →
     bs = service_finding <$>
            meeting threshold_service (closed_runs (call_service <$> pipeline)) ∧
     be = endpoint_finding <$>
            meeting threshold_endpoint (closed_runs (call_endpoint <$> pipeline))) ∧
  (∀ pre c run,
     pipeline = pre ++ c :: run →
     (Forall (λ d, call_service d = call_service c) run →
      fst <$> detect_request_bundle pipeline threshold_service threshold_endpoint =
      fst <$> detect_request_bundle (pre ++ [c])
                threshold_service threshold_endpoint) ∧
     (Forall (λ d, call_endpoint d = call_endpoint c) run →
      snd <$> detect_request_bundle pipeline threshold_service threshold_endpoint =
      snd <$> detect_request_bundle (pre ++ [c])
                threshold_service threshold_endpoint)).
Proof.
  destruct (decide (2 ≤ threshold_service ∧ 2 ≤ threshold_endpoint))
    as [[Hs He]|Hlow].
  - split.
    + intros bs be. rewrite detect_request_bundle_ok by done.
      by intros [= <- <-].
    + intros pre c run ->. rewrite !detect_request_bundle_ok by done.
      rewrite !fmap_app, !fmap_cons. simpl.
      split; intros Hall; do 3 f_equal.
      * apply closed_runs_trailing. by apply Forall_fmap.
      * apply closed_runs_trailing. by apply Forall_fmap.
  - assert (threshold_service ≤ 1 ∨ threshold_endpoint ≤ 1) as Hlow' by lia.
    split.
    + intros bs be. destruct pipeline as [|c rest]; [by intros [= <- <-]|].
      by rewrite detect_request_bundle_raise.
    + intros pre c run ->.
      assert (∀ l : list Call, l ≠ [] →
        detect_request_bundle l threshold_service threshold_endpoint
          = Raise TypeError) as Hraise.
      { intros [|c' l'] Hne; [done|]. by apply detect_request_bundle_raise. }
      rewrite !Hraise; [done| |]; by destruct pre.
Qed.

Lemma trailing_run_never_emitted_witness :
  (detect_request_bundle three_calls 2 2 = Ok ([], []) ∧
   three_calls = [] ++ (1, "A", "B", "/x") ::
                   [(2, "A", "B", "/x"); (3, "A", "B", "/x")]) ∧
  runs (call_service <$> three_calls) = [(("A", "B"), 3)] ∧
  closed_runs (call_service <$> three_calls) = [] ∧
  fst <$> detect_request_bundle three_calls 2 2 =
  fst <$> detect_request_bundle [(1, "A", "B", "/x")] 2 2.
Proof.
  assert (detect_request_bundle three_calls 2 2 = Ok ([], [])) as E
    by reflexivity.
  assert (three_calls = [] ++ (1, "A", "B", "/x") ::
                          [(2, "A", "B", "/x"); (3, "A", "B", "/x")]) as E'
    by reflexivity.
  destruct (trailing_run_never_emitted three_calls 2 2) as [H H'].
  destruct (H _ _ E) as [_ _]. destruct (H' _ _ _ E') as [Hs _].
  split_and!; [done|done|reflexivity|reflexivity|].
  apply Hs. by repeat constructor.
Defined.

(** C2. With a threshold of 1 the first call of a pipeline makes
    [detect_request_bundle] unpack the [None] it starts from: it raises
    [TypeError] on every pipeline that is not empty. *)
Theorem threshold_one_raises (c : Call) (rest : list Call) (threshold_endpoint : Z) :
  detect_request_bundle (c :: rest) 1 threshold_endpoint = Raise TypeError.
Proof. apply detect_request_bundle_raise. lia. Qed.

(** C7. Three calls [A -> B] on one endpoint, then a call [C -> D], with
    both thresholds 2: one service-level finding and one endpoint-level
    finding, both of count 3. *)
Theorem three_calls_then_another (t1 t2 t3 t4 : Z) (endpoint endpoint' : string) :
  detect_request_bundle
    [(t1, "A", "B", endpoint); (t2, "A", "B", endpoint);
     (t3, "A", "B", endpoint); (t4, "C", "D", endpoint')] 2 2
  = Ok ([("A", "B", 3)], [("A", "B", endpoint, 3)]).
Proof.
  rewrite detect_request_bundle_ok by lia. unfold closed_runs. simpl.
  rewrite !decide_True by done. done.
Qed.

End bundle_claims.

(** ** The derived directed graph *)

Section graph_facts.
Import Graph.

Lemma elem_of_succ (D : DiGraph) (u v : string) :
  v ∈ succ D u ↔ (u, v) ∈ edges D.
Proof.
  unfold succ. rewrite elem_of_map. split.
  - intros [[a b] [-> [Ha Hin]%elem_of_filter]]. simpl in *. by subst.
  - intros Hin. exists (u, v). split; [done|]. by apply elem_of_filter.
Qed.

Lemma elem_of_pred (D : DiGraph) (u v : string) :
  u ∈ pred D v ↔ (u, v) ∈ edges D.
Proof.
  unfold pred. rewrite elem_of_map. split.
  - intros [[a b] [-> [Ha Hin]%elem_of_filter]]. simpl in *. by subst.
  - intros Hin. exists (u, v). split; [done|]. by apply elem_of_filter.
Qed.

(** [u] is a predecessor of [v] exactly when [v] is a successor of [u]. *)
Lemma pred_succ (D : DiGraph) (u v : string) : u ∈ pred D v ↔ v ∈ succ D u.
Proof. by rewrite elem_of_pred, elem_of_succ. Qed.

(** What [networkx] keeps true of a graph: no node occurs twice, and the
    end points of every edge are nodes. *)
Definition wf (D : DiGraph) : Prop :=
  NoDup (nodes D) ∧ ∀ u v, (u, v) ∈ edges D → u ∈ nodes D ∧ v ∈ nodes D.

Lemma wf_empty : wf empty_graph.
Proof. split; [constructor|]. intros u v Hin. set_solver. Qed.

Lemma nodes_add_node (D : DiGraph) (n m : string) :
  m ∈ nodes (add_node D n) ↔ m ∈ nodes D ∨ m = n.
Proof.
  unfold add_node. destruct (decide (n ∈ nodes D)); simpl.
  - split; [by left|]. by intros [?| ->].
  - rewrite elem_of_app, list_elem_of_singleton. done.
Qed.

Lemma edges_add_node (D : DiGraph) (n : string) : edges (add_node D n) = edges D.
Proof. unfold add_node. by destruct (decide (n ∈ nodes D)). Qed.

Lemma wf_add_node (D : DiGraph) (n : string) : wf D → wf (add_node D n).
Proof.
  intros [Hnd Hed]. split.
  - unfold add_node. destruct (decide (n ∈ nodes D)); [done|]. simpl.
    apply NoDup_app. split_and!; [done| |apply NoDup_singleton].
    intros x Hx ->%list_elem_of_singleton. done.
  - intros u v. rewrite edges_add_node, !nodes_add_node. naive_solver.
Qed.

Lemma wf_add_edge (D : DiGraph) (e : string * string * string) :
  wf D → wf (add_edge D e).
Proof.
  destruct e as [[u v] k]. intros HD.
  pose proof (wf_add_node _ v (wf_add_node _ u HD)) as [Hnd Hed].
  split; [done|]. simpl. intros a b.
  rewrite elem_of_union, elem_of_singleton. intros [[= -> ->]|Hin].
  - rewrite !nodes_add_node. naive_solver.
  - by apply Hed.
Qed.

Lemma wf_foldl_add_node (l : list string) (D : DiGraph) :
  wf D → wf (foldl add_node D l).
Proof. revert D. induction l; simpl; auto using wf_add_node. Qed.

Lemma wf_foldl_add_edge (l : list (string * string * string)) (D : DiGraph) :
  wf D → wf (foldl add_edge D l).
Proof. revert D. induction l; simpl; auto using wf_add_edge. Qed.

Lemma wf_nx_DiGraph (G : MultiDiGraph) : wf (nx_DiGraph G).
Proof. apply wf_foldl_add_edge, wf_foldl_add_node, wf_empty. Qed.

(** A node with a neighbour is a node of the graph. *)
Lemma out_degree_pos_node (D : DiGraph) (n : string) :
  wf D → (0 < out_degree D n)%nat → n ∈ nodes D.
Proof.
  intros [_ Hed] Hpos. unfold out_degree in Hpos.
  destruct (set_choose_L (succ D n)) as [v Hv].
  { intros Hemp. rewrite Hemp, size_empty in Hpos. lia. }
  apply elem_of_succ in Hv. by destruct (Hed _ _ Hv).
Qed.

Lemma pred_node (D : DiGraph) (p n : string) :
  wf D → p ∈ pred D n → n ∈ nodes D.
Proof. intros [_ Hed] Hp%elem_of_pred. by destruct (Hed _ _ Hp). Qed.

(** A set of size one: its only element is the first of its elements. *)
Lemma size_one_elements (X : gset string) :
  size X = 1%nat → ∃ x, X = {[ x ]} ∧ elements X = [x].
Proof.
  intros [x Hx]%size_1_elem_of. apply leibniz_equiv in Hx. subst X.
  exists x. split; [done|]. apply elements_singleton.
Qed.

End graph_facts.

(** ** Frontend integration: what the loop collects *)

Section frontend_facts.
Import Graph Frontend.
Variables (D : DiGraph) (frontend_services : gset string).

Lemma candidates_foldl (l : list string) (st : locals) (n : string) :
  n ∈ frontend_candidates (foldl (body D frontend_services) st l) ↔
  n ∈ frontend_candidates st ∨
  (n ∈ l ∧ in_degree D n = 0%nat ∧ (0 < out_degree D n)%nat).
Proof.
  revert st. induction l as [|a l IH]; intros st; simpl.
  - rewrite elem_of_nil. tauto.
  - rewrite IH, elem_of_cons. unfold body.
    repeat case_decide; simpl; rewrite ?elem_of_union, ?elem_of_singleton;
      naive_solver.
Qed.

Lemma violators_foldl (l : list string) (st : locals) (n : string) :
  n ∈ frontend_violators (foldl (body D frontend_services) st l) ↔
  n ∈ frontend_violators st ∨
  (n ∈ l ∧ in_degree D n ≠ 0%nat ∧ n ∈ frontend_services).
Proof.
  revert st. induction l as [|a l IH]; intros st; simpl.
  - rewrite elem_of_nil. tauto.
  - rewrite IH, elem_of_cons. unfold body.
    repeat case_decide; simpl; rewrite ?elem_of_union, ?elem_of_singleton;
      naive_solver.
Qed.

End frontend_facts.

Lemma elem_of_frontend_candidates (G : Graph.MultiDiGraph)
    (frontend_services : option (gset string)) (n : string) :
  n ∈ (Frontend.detect_frontend_integration G frontend_services).1 ↔
  n ∈ Graph.nodes (Graph.nx_DiGraph G) ∧
  Graph.in_degree (Graph.nx_DiGraph G) n = 0%nat ∧
  (0 < Graph.out_degree (Graph.nx_DiGraph G) n)%nat.
Proof.
  unfold Frontend.detect_frontend_integration. simpl.
  rewrite candidates_foldl. simpl. set_solver.
Qed.

Lemma elem_of_frontend_violators (G : Graph.MultiDiGraph)
    (frontend_services : option (gset string)) (n : string) :
  n ∈ (Frontend.detect_frontend_integration G frontend_services).2 ↔
  n ∈ Graph.nodes (Graph.nx_DiGraph G) ∧
  Graph.in_degree (Graph.nx_DiGraph G) n ≠ 0%nat ∧
  n ∈ default ∅ frontend_services.
Proof.
  unfold Frontend.detect_frontend_integration. simpl.
  rewrite violators_foldl. simpl. set_solver.
Qed.

(** ** Information holder resource: what the loop collects *)

Section ihr_facts.
Import Graph IHR.
Variables (D : DiGraph) (database_services : gset string).

Lemma inspect_preds_candidates (st : locals) (node p n : string) :
  (p, n) ∈ ihr_candidates (inspect_preds D st node) ↔
  (p, n) ∈ ihr_candidates st ∨
  (n = node ∧ pred D node = {[ p ]} ∧ size (succ D p) = 1%nat).
Proof.
  unfold inspect_preds. case_decide as Hsz.
  - destruct (size_one_elements _ Hsz) as (q & Hq & ->). rewrite Hq.
    case_decide; simpl; rewrite ?elem_of_union, ?elem_of_singleton.
    + split; [intros [?|[= -> ->]]; auto|].
      intros [?|(-> & ->%singleton_inj & ?)]; auto.
    + split; [auto|]. intros [?|(-> & ->%singleton_inj & ?)]; [done|lia].
  - split; [auto|]. intros [?|(-> & Hp & ?)]; [done|].
    rewrite Hp, size_singleton in Hsz. done.
Qed.

Lemma inspect_preds_violators (st : locals) (node p n : string) :
  (p, n) ∈ ihr_violators (inspect_preds D st node) ↔
  (p, n) ∈ ihr_violators st ∨
  (n = node ∧ pred D node = {[ p ]} ∧ size (succ D p) ≠ 1%nat).
Proof.
  unfold inspect_preds. case_decide as Hsz.
  - destruct (size_one_elements _ Hsz) as (q & Hq & ->). rewrite Hq.
    case_decide; simpl; rewrite ?elem_of_union, ?elem_of_singleton.
    + split; [auto|]. intros [?|(-> & ->%singleton_inj & ?)]; [done|lia].
    + split; [intros [?|[= -> ->]]; auto|].
      intros [?|(-> & ->%singleton_inj & ?)]; auto.
  - split; [auto|]. intros [?|(-> & Hp & ?)]; [done|].
    rewrite Hp, size_singleton in Hsz. done.
Qed.

Lemma inspect_preds_call_violators (st : locals) (node : string) :
  database_call_violators (inspect_preds D st node) = database_call_violators st.
Proof.
  unfold inspect_preds. case_decide; [|done].
  destruct (elements (pred D node)); [done|]. by case_decide.
Qed.

Lemma inspect_preds_no_ihr (st : locals) (node n : string) :
  n ∈ database_no_ihr_violators (inspect_preds D st node) ↔
  n ∈ database_no_ihr_violators st ∧ ¬ (n = node ∧ size (pred D node) = 1%nat).
Proof.
  unfold inspect_preds. case_decide as Hsz.
  - destruct (size_one_elements _ Hsz) as (q & Hq & ->).
    case_decide; simpl; rewrite elem_of_difference, elem_of_singleton;
      naive_solver.
  - naive_solver.
Qed.

Lemma ihr_candidates_foldl (l : list string) (st : locals) (p n : string) :
  (p, n) ∈ ihr_candidates (foldl (body D database_services) st l) ↔
  (p, n) ∈ ihr_candidates st ∨
  (n ∈ l ∧ (out_degree D n = 0%nat ∨ n ∈ database_services) ∧
   pred D n = {[ p ]} ∧ size (succ D p) = 1%nat).
Proof.
  revert st. induction l as [|a l IH]; intros st; simpl.
  - rewrite elem_of_nil. tauto.
  - rewrite IH, elem_of_cons. unfold body.
    repeat case_bool_decide; simpl; rewrite ?inspect_preds_candidates;
      naive_solver.
Qed.

Lemma ihr_violators_foldl (l : list string) (st : locals) (p n : string) :
  (p, n) ∈ ihr_violators (foldl (body D database_services) st l) ↔
  (p, n) ∈ ihr_violators st ∨
  (n ∈ l ∧ (out_degree D n = 0%nat ∨ n ∈ database_services) ∧
   pred D n = {[ p ]} ∧ size (succ D p) ≠ 1%nat).
Proof.
  revert st. induction l as [|a l IH]; intros st; simpl.
  - rewrite elem_of_nil. tauto.
  - rewrite IH, elem_of_cons. unfold body.
    repeat case_bool_decide; simpl; rewrite ?inspect_preds_violators;
      naive_solver.
Qed.

Lemma call_violators_foldl (l : list string) (st : locals) (n : string) :
  n ∈ database_call_violators (foldl (body D database_services) st l) ↔
  n ∈ database_call_violators st ∨
  (n ∈ l ∧ out_degree D n ≠ 0%nat ∧ n ∈ database_services).
Proof.
  revert st. induction l as [|a l IH]; intros st; simpl.
  - rewrite elem_of_nil. tauto.
  - rewrite IH, elem_of_cons. unfold body.
    repeat case_bool_decide; simpl;
      rewrite ?elem_of_union, ?elem_of_singleton, ?inspect_preds_call_violators;
      naive_solver.
Qed.

Lemma no_ihr_foldl (l : list string) (st : locals) (n : string) :
  n ∈ database_no_ihr_violators (foldl (body D database_services) st l) ↔
  n ∈ database_no_ihr_violators st ∧ ¬ (n ∈ l ∧ inspected D database_services n).
Proof.
  revert st. induction l as [|a l IH]; intros st; simpl.
  - rewrite elem_of_nil. tauto.
  - rewrite IH, elem_of_cons. unfold body, inspected.
    repeat case_bool_decide; simpl; rewrite ?inspect_preds_no_ihr;
      naive_solver.
Qed.

End ihr_facts.

(** ** The claims on the two graph detectors *)

Section graph_claims.
Import Graph.

(** C4. For every node of the graph: with in-degree 0 and out-degree > 0 it
    is in [frontend_candidates]; otherwise, with in-degree > 0 and declared
    in [frontend_services], it is in [frontend_violators]; and these are the
    only ways into the two sets, so that a declared frontend with in-degree 0
    is never a violator. *)
Theorem frontend_branch_structure (G : MultiDiGraph)
    (frontend_services : option (gset string)) (node : string) :
  let D := nx_DiGraph G in
  let '(frontend_candidates, frontend_violators) :=
    Frontend.detect_frontend_integration G frontend_services in
  node ∈ nodes D →
  (node ∈ frontend_candidates ↔
     in_degree D node = 0%nat ∧ (0 < out_degree D node)%nat) ∧
  (node ∈ frontend_violators ↔
     (0 < in_degree D node)%nat ∧ node ∈ default ∅ frontend_services) ∧
  (node ∈ default ∅ frontend_services → in_degree D node = 0%nat →
     node ∉ frontend_violators).
Proof.
  intros D.
  pose proof (elem_of_frontend_candidates G frontend_services node) as Hc.
  pose proof (elem_of_frontend_violators G frontend_services node) as Hv.
  destruct (Frontend.detect_frontend_integration G frontend_services)
    as [cands viols]. simpl in Hc, Hv. fold D in Hc, Hv.
  intros Hnode. rewrite Hc, Hv. split_and!.
  - naive_solver.
  - split; [intros (_ & ? & ?)|intros [? ?]]; split_and?; auto; lia.
  - intros _ Hz (_ & ? & _). done.
Qed.

Lemma frontend_branch_structure_witness :
  let D := nx_DiGraph G1 in
  let '(frontend_candidates, frontend_violators) :=
    Frontend.detect_frontend_integration G1 (Some {[ "P" ]}) in
  "X" ∈ nodes D ∧
  "X" ∈ frontend_candidates ∧ "P" ∈ frontend_violators ∧
  ("X" ∉ frontend_violators).
Proof.
  intros D.
  assert ("X" ∈ nodes D) as HX by (vm_compute; left).
  assert ("P" ∈ nodes D) as HP by (vm_compute; right; left).
  pose proof (frontend_branch_structure G1 (Some {[ "P" ]}) "X") as H.
  pose proof (frontend_branch_structure G1 (Some {[ "P" ]}) "P") as H'.
  cbv zeta in H, H'. fold D in H, H'.
  destruct (Frontend.detect_frontend_integration G1 (Some {[ "P" ]}))
    as [cands viols].
  destruct (H HX) as (Hc & Hv & _). destruct (H' HP) as (_ & Hv' & _).
  split_and!; [done| | |].
  - apply Hc. vm_compute. split; [reflexivity|lia].
  - apply Hv'. split; [vm_compute; lia|vm_compute; reflexivity].
  - rewrite Hv. vm_compute. intros [? _]. lia.
Defined.

(** C10. The two sets [detect_frontend_integration] returns are disjoint. *)
Theorem frontend_candidates_violators_disjoint (G : MultiDiGraph)
    (frontend_services : option (gset string)) :
  (Frontend.detect_frontend_integration G frontend_services).1 ##
  (Frontend.detect_frontend_integration G frontend_services).2.
Proof.
  intros n Hc%elem_of_frontend_candidates Hv%elem_of_frontend_violators.
  naive_solver.
Qed.

(** The four sets of [detect_information_holder_resource], element by element. *)
Lemma elem_of_ihr_results (G : MultiDiGraph) (database_services : option (gset string))
    (c v : gset (string * string)) (cv no : gset string) :
  IHR.detect_information_holder_resource G database_services = (c, v, cv, no) →
  let D := nx_DiGraph G in
  let db := default ∅ database_services in
  (∀ p n, (p, n) ∈ c ↔
     n ∈ nodes D ∧ (out_degree D n = 0%nat ∨ n ∈ db) ∧
     pred D n = {[ p ]} ∧ size (succ D p) = 1%nat) ∧
  (∀ p n, (p, n) ∈ v ↔
     n ∈ nodes D ∧ (out_degree D n = 0%nat ∨ n ∈ db) ∧
     pred D n = {[ p ]} ∧ size (succ D p) ≠ 1%nat) ∧
  (∀ n, n ∈ cv ↔ n ∈ nodes D ∧ out_degree D n ≠ 0%nat ∧ n ∈ db) ∧
  (∀ n, n ∈ no ↔ n ∈ db ∧ ¬ (n ∈ nodes D ∧ IHR.inspected D db n)).
Proof.
  intros E D db. unfold IHR.detect_information_holder_resource in E.
  fold D db in E. injection E as <- <- <- <-. split_and!.
  - intros p n. rewrite ihr_candidates_foldl. simpl. set_solver.
  - intros p n. rewrite ihr_violators_foldl. simpl. set_solver.
  - intros n. rewrite call_violators_foldl. simpl. set_solver.
  - intros n. rewrite no_ihr_foldl. simpl. done.
Qed.

(** C3. A node with out-degree 0 or declared a database, whose only
    predecessor is [p]: [(p, node)] is an IHR candidate when [p] has exactly
    one successor and an IHR violator otherwise, and [node] is no longer in
    [database_no_ihr_violators]. *)
Theorem ihr_single_predecessor (G : MultiDiGraph)
    (database_services : option (gset string)) (node p : string) :
  let D := nx_DiGraph G in
  let '(ihr_candidates, ihr_violators, _, database_no_ihr_violators) :=
    IHR.detect_information_holder_resource G database_services in
  out_degree D node = 0%nat ∨ node ∈ default ∅ database_services →
  pred D node = {[ p ]} →
  (size (succ D p) = 1%nat →
     (p, node) ∈ ihr_candidates ∧ (p, node) ∉ ihr_violators) ∧
  (size (succ D p) ≠ 1%nat →
     (p, node) ∈ ihr_violators ∧ (p, node) ∉ ihr_candidates) ∧
  node ∉ database_no_ihr_violators.
Proof.
  intros D. destruct (IHR.detect_information_holder_resource G database_services)
    as [[[c v] cv] no] eqn:E.
  destruct (elem_of_ihr_results _ _ _ _ _ _ E) as (Hc & Hv & _ & Hno). intros Hdeg Hpred.
  assert (node ∈ nodes D) as Hnode.
  { apply (pred_node D p); [apply wf_nx_DiGraph|]. rewrite Hpred. set_solver. }
  rewrite Hc, Hv, Hno. split_and!.
  - intros Hs. split; [done|]. intros (_ & _ & _ & ?). done.
  - intros Hs. split; [done|]. intros (_ & _ & _ & ?). done.
  - intros [_ Hn]. apply Hn. split; [done|]. split; [done|].
    unfold IHR.inspected. fold D. by rewrite Hpred, size_singleton.
Qed.

Lemma ihr_single_predecessor_witness :
  let D := nx_DiGraph G1 in
  let '(ihr_candidates, ihr_violators, _, database_no_ihr_violators) :=
    IHR.detect_information_holder_resource G1 (Some {[ "S"; "Z" ]}) in
  ((out_degree D "S" = 0%nat ∨
    "S" ∈ default ∅ (Some ({[ "S"; "Z" ]} : gset string))) ∧
   pred D "S" = {[ "P" ]} ∧ size (succ D "P") = 1%nat) ∧
  ("P", "S") ∈ ihr_candidates ∧ (("P", "S") ∉ ihr_violators) ∧
  ("S" ∉ database_no_ihr_violators).
Proof.
  intros D.
  assert (out_degree D "S" = 0%nat ∨
          "S" ∈ default ∅ (Some ({[ "S"; "Z" ]} : gset string))) as H1
    by (left; vm_compute; reflexivity).
  assert (pred D "S" = {[ "P" ]}) as H2 by (vm_compute; reflexivity).
  assert (size (succ D "P") = 1%nat) as H3 by (vm_compute; reflexivity).
  pose proof (ihr_single_predecessor G1 (Some {[ "S"; "Z" ]}) "S" "P") as H.
  cbv zeta in H. fold D in H.
  destruct (IHR.detect_information_holder_resource G1 (Some {[ "S"; "Z" ]}))
    as [[[c v] cv] no].
  destruct (H H1 H2) as (Hc & _ & Hno). destruct (Hc H3) as [? ?].
  split_and!; done.
Defined.

(** C5. A declared database service with out-degree > 0 is in
    [database_call_violators], whatever its predecessors are; when it also
    has exactly one predecessor [p], the pair [(p, node)] is classified as
    well, so both findings occur for the same node. *)
Theorem database_call_violators_complete (G : MultiDiGraph)
    (database_services : option (gset string)) (node : string) :
  let D := nx_DiGraph G in
  let '(ihr_candidates, ihr_violators, database_call_violators, _) :=
    IHR.detect_information_holder_resource G database_services in
  node ∈ default ∅ database_services →
  (0 < out_degree D node)%nat →
  node ∈ database_call_violators ∧
  (∀ p, pred D node = {[ p ]} →
        (p, node) ∈ ihr_candidates ∨ (p, node) ∈ ihr_violators).
Proof.
  intros D.
  destruct (IHR.detect_information_holder_resource G database_services)
    as [[[c v] cv] no] eqn:E.
  destruct (elem_of_ihr_results _ _ _ _ _ _ E) as (Hc & Hv & Hcv & _).
  fold D in Hc, Hv, Hcv. intros Hdb Hpos.
  assert (node ∈ nodes D) as Hnode
    by (by apply out_degree_pos_node; [apply wf_nx_DiGraph|]).
  split.
  - rewrite Hcv. split_and!; [done|lia|done].
  - intros p Hp. rewrite Hc, Hv.
    destruct (decide (size (succ D p) = 1%nat)); [left|right]; auto.
Qed.

Lemma database_call_violators_complete_witness :
  let D := nx_DiGraph G2 in
  let '(ihr_candidates, _, database_call_violators, _) :=
    IHR.detect_information_holder_resource G2 (Some {[ "S" ]}) in
  ("S" ∈ default ∅ (Some ({[ "S" ]} : gset string)) ∧
   (0 < out_degree D "S")%nat ∧ pred D "S" = {[ "P" ]}) ∧
  "S" ∈ database_call_violators ∧ ("P", "S") ∈ ihr_candidates.
Proof.
  intros D.
  assert ("S" ∈ default ∅ (Some ({[ "S" ]} : gset string))) as H1
    by (vm_compute; reflexivity).
  assert (0 < out_degree D "S")%nat as H2 by (vm_compute; lia).
  assert (pred D "S" = {[ "P" ]}) as H3 by (vm_compute; reflexivity).
  pose proof (database_call_violators_complete G2 (Some {[ "S" ]}) "S") as H.
  cbv zeta in H. fold D in H.
  assert (IHR.detect_information_holder_resource G2 (Some {[ "S" ]})
          = ({[ ("P", "S") ]}, ∅, {[ "S" ]}, ∅)) as E
    by (vm_compute; reflexivity).
  rewrite E in H |- *.
  destruct (H H1 H2) as [Hcv Hp]. split_and!; try done.
Defined.

(** C6. A declared database service with out-degree 0 and no predecessor is
    in [database_no_ihr_violators], is not in [database_call_violators] and
    is no component of a pair of [ihr_candidates] or [ihr_violators]. Any
    node whose number of predecessors is not 1 is the second component of no
    such pair, and stays in [database_no_ihr_violators] if it is declared. *)
Theorem ihr_not_one_predecessor (G : MultiDiGraph)
    (database_services : option (gset string)) (node : string) :
  let D := nx_DiGraph G in
  let '(ihr_candidates, ihr_violators,
        database_call_violators, database_no_ihr_violators) :=
    IHR.detect_information_holder_resource G database_services in
  (node ∈ default ∅ database_services →
   out_degree D node = 0%nat → size (pred D node) = 0%nat →
     node ∈ database_no_ihr_violators ∧
     (node ∉ database_call_violators) ∧
     ∀ x, ((x, node) ∉ ihr_candidates) ∧ ((node, x) ∉ ihr_candidates) ∧
          ((x, node) ∉ ihr_violators) ∧ ((node, x) ∉ ihr_violators)) ∧
  (size (pred D node) ≠ 1%nat →
     (∀ p, ((p, node) ∉ ihr_candidates) ∧ ((p, node) ∉ ihr_violators)) ∧
     (node ∈ database_no_ihr_violators ↔ node ∈ default ∅ database_services)).
Proof.
  intros D. destruct (IHR.detect_information_holder_resource G database_services)
    as [[[c v] cv] no] eqn:E.
  destruct (elem_of_ihr_results _ _ _ _ _ _ E) as (Hc & Hv & Hcv & Hno).
  fold D in Hc, Hv, Hcv, Hno.
  assert (∀ x, out_degree D node = 0%nat → pred D x ≠ {[ node ]}) as Hout.
  { intros x Hz Hp. assert (x ∈ succ D node) as Hx.
    { apply pred_succ. rewrite Hp. set_solver. }
    unfold out_degree in Hz. apply size_empty_inv in Hz. set_solver. }
  assert (∀ x, size (pred D node) ≠ 1%nat → pred D node ≠ {[ x ]}) as Hin.
  { intros x Hsz Hp. by rewrite Hp, size_singleton in Hsz. }
  split.
  - intros Hdb Hz Hnp. split_and!.
    + rewrite Hno. split; [done|]. intros [_ [_ ?]]. lia.
    + rewrite Hcv. intros (_ & ? & _). done.
    + intros x. rewrite !Hc, !Hv. split_and!.
      * intros (_ & _ & ? & _). eapply Hin; [|done]. lia.
      * intros (_ & _ & ? & _). by eapply Hout.
      * intros (_ & _ & ? & _). eapply Hin; [|done]. lia.
      * intros (_ & _ & ? & _). by eapply Hout.
  - intros Hsz. split.
    + intros q. rewrite Hc, Hv.
      split; intros (_ & _ & ? & _); by eapply Hin.
    + rewrite Hno. split; [by intros [? _]|]. intros Hdb. split; [done|].
      intros [_ [_ ?]]. done.
Qed.

Lemma ihr_not_one_predecessor_witness :
  let D := nx_DiGraph G1' in
  let '(_, _, database_call_violators, database_no_ihr_violators) :=
    IHR.detect_information_holder_resource G1' (Some {[ "S"; "W" ]}) in
  "W" ∈ nodes D ∧
  ("W" ∈ default ∅ (Some ({[ "S"; "W" ]} : gset string)) ∧
   out_degree D "W" = 0%nat ∧ size (pred D "W") = 0%nat ∧
   size (pred D "W") ≠ 1%nat) ∧
  "W" ∈ database_no_ihr_violators ∧ ("W" ∉ database_call_violators).
Proof.
  intros D.
  assert ("W" ∈ nodes D) as H0.
  { apply (bool_decide_unpack _). vm_compute. exact I. }
  assert ("W" ∈ default ∅ (Some ({[ "S"; "W" ]} : gset string))) as H1
    by (vm_compute; reflexivity).
  assert (out_degree D "W" = 0%nat) as H2 by (vm_compute; reflexivity).
  assert (size (pred D "W") = 0%nat) as H3 by (vm_compute; reflexivity).
  assert (size (pred D "W") ≠ 1%nat) as H4 by (vm_compute; lia).
  pose proof (ihr_not_one_predecessor G1' (Some {[ "S"; "W" ]}) "W") as H.
  cbv zeta in H. fold D in H.
  destruct (IHR.detect_information_holder_resource G1' (Some {[ "S"; "W" ]}))
    as [[[c v] cv] no].
  destruct H as [Ha Hb]. destruct (Ha H1 H2 H3) as (? & ? & _).
  destruct (Hb H4) as [_ _]. split_and!; done.
Defined.

End graph_claims.

(** ** The store: primitives *)

Section store_facts.
Import Graph Store.
Implicit Types (h : heap) (l : loc).

Lemma bind_ok {A B : Type} (m : M A) (f : A → M B) h (a : A) h' :
  m h = (Ok a, h') → (m ≫= f) h = f a h'.
Proof. intros E. unfold mbind, M_bind. by rewrite E. Qed.

Lemma bind_raise {A B : Type} (m : M A) (f : A → M B) h (e : exn) h' :
  m h = (Raise e, h') → (m ≫= f) h = (Raise e, h').
Proof. intros E. unfold mbind, M_bind. by rewrite E. Qed.

Lemma alloc_fresh (o : pyobj) h : ∃ l,
  alloc o h = (Ok l, <[l := o]> h) ∧ l ∉ dom h.
Proof. exists (fresh (dom h)). split; [done|apply is_fresh]. Qed.

Lemma load_ok h l (o : pyobj) : h !! l = Some o → load l h = (Ok o, h).
Proof. intros E. unfold load. by rewrite E. Qed.

Lemma load_names_ok h l (s : gset string) :
  h !! l = Some (PyNames s) → load_names l h = (Ok s, h).
Proof. intros E. unfold load_names. by rewrite (bind_ok _ _ _ _ _ (load_ok _ _ _ E)). Qed.

Lemma load_pairs_ok h l (s : gset (string * string)) :
  h !! l = Some (PyPairs s) → load_pairs l h = (Ok s, h).
Proof. intros E. unfold load_pairs. by rewrite (bind_ok _ _ _ _ _ (load_ok _ _ _ E)). Qed.

Lemma load_digraph_ok h l (D : DiGraph) :
  h !! l = Some (PyDiGraph D) → load_digraph l h = (Ok D, h).
Proof. intros E. unfold load_digraph. by rewrite (bind_ok _ _ _ _ _ (load_ok _ _ _ E)). Qed.

Lemma load_pipeline_ok h l (calls : list Bundle.Call) :
  h !! l = Some (PyPipeline calls) → load_pipeline l h = (Ok calls, h).
Proof. intros E. unfold load_pipeline. by rewrite (bind_ok _ _ _ _ _ (load_ok _ _ _ E)). Qed.

Lemma load_service_bundles_ok h l (bs : list Bundle.service_bundle) :
  h !! l = Some (PyServiceBundles bs) → load_service_bundles l h = (Ok bs, h).
Proof.
  intros E. unfold load_service_bundles.
  by rewrite (bind_ok _ _ _ _ _ (load_ok _ _ _ E)).
Qed.

Lemma load_endpoint_bundles_ok h l (bs : list Bundle.endpoint_bundle) :
  h !! l = Some (PyEndpointBundles bs) → load_endpoint_bundles l h = (Ok bs, h).
Proof.
  intros E. unfold load_endpoint_bundles.
  by rewrite (bind_ok _ _ _ _ _ (load_ok _ _ _ E)).
Qed.

Lemma names_add_ok h l (s : gset string) (x : string) :
  h !! l = Some (PyNames s) →
  names_add l x h = (Ok tt, <[l := PyNames (s ∪ {[ x ]})]> h).
Proof. intros E. unfold names_add. by rewrite (bind_ok _ _ _ _ _ (load_names_ok _ _ _ E)). Qed.

Lemma names_discard_ok h l (s : gset string) (x : string) :
  h !! l = Some (PyNames s) →
  names_discard l x h = (Ok tt, <[l := PyNames (s ∖ {[ x ]})]> h).
Proof. intros E. unfold names_discard. by rewrite (bind_ok _ _ _ _ _ (load_names_ok _ _ _ E)). Qed.

Lemma names_contains_ok h l (s : gset string) (x : string) :
  h !! l = Some (PyNames s) →
  names_contains l x h = (Ok (bool_decide (x ∈ s)), h).
Proof. intros E. unfold names_contains. by rewrite (bind_ok _ _ _ _ _ (load_names_ok _ _ _ E)). Qed.

Lemma pairs_add_ok h l (s : gset (string * string)) (x : string * string) :
  h !! l = Some (PyPairs s) →
  pairs_add l x h = (Ok tt, <[l := PyPairs (s ∪ {[ x ]})]> h).
Proof. intros E. unfold pairs_add. by rewrite (bind_ok _ _ _ _ _ (load_pairs_ok _ _ _ E)). Qed.

Lemma append_service_ok h l (bs : list Bundle.service_bundle) b :
  h !! l = Some (PyServiceBundles bs) →
  append_service l b h = (Ok tt, <[l := PyServiceBundles (bs ++ [b])]> h).
Proof.
  intros E. unfold append_service.
  by rewrite (bind_ok _ _ _ _ _ (load_service_bundles_ok _ _ _ E)).
Qed.

Lemma append_endpoint_ok h l (bs : list Bundle.endpoint_bundle) b :
  h !! l = Some (PyEndpointBundles bs) →
  append_endpoint l b h = (Ok tt, <[l := PyEndpointBundles (bs ++ [b])]> h).
Proof.
  intros E. unfold append_endpoint.
  by rewrite (bind_ok _ _ _ _ _ (load_endpoint_bundles_ok _ _ _ E)).
Qed.

End store_facts.

(** ** The store: frontend integration *)

Section frontend_store.
Import Graph Store.

(** The loop only writes to the two sets it fills, and fills them as
    [Frontend.body] does. *)
Lemma frontend_loop_store (D fs lc lv : loc) (d : DiGraph) (f : gset string)
    (items : list string) (h : heap) (st : Frontend.locals) :
  lc ≠ lv → lc ≠ D → lv ≠ D → lc ≠ fs → lv ≠ fs →
  h !! D = Some (PyDiGraph d) →
  h !! fs = Some (PyNames f) →
  h !! lc = Some (PyNames (Frontend.frontend_candidates st)) →
  h !! lv = Some (PyNames (Frontend.frontend_violators st)) →
  ∃ h',
    for_each (frontend_body D fs lc lv)
      ((λ n, (n, in_degree d n)) <$> items) h = (Ok tt, h') ∧
    h' !! lc = Some (PyNames (Frontend.frontend_candidates
                                (foldl (Frontend.body d f) st items))) ∧
    h' !! lv = Some (PyNames (Frontend.frontend_violators
                                (foldl (Frontend.body d f) st items))) ∧
    ∀ l, l ≠ lc → l ≠ lv → h' !! l = h !! l.
Proof.
  intros Hcv HcD HvD Hcf Hvf. revert h st.
  induction items as [|node items IH]; intros h st HD Hfs Hc Hv.
  - exists h. done.
  - simpl.
    assert (∃ h1, frontend_body D fs lc lv (node, in_degree d node) h = (Ok tt, h1) ∧
              h1 !! lc = Some (PyNames (Frontend.frontend_candidates
                                          (Frontend.body d f st node))) ∧
              h1 !! lv = Some (PyNames (Frontend.frontend_violators
                                          (Frontend.body d f st node))) ∧
              ∀ l, l ≠ lc → l ≠ lv → h1 !! l = h !! l)
      as (h1 & Hrun & Hc1 & Hv1 & Hfr).
    { unfold frontend_body, Frontend.body.
      destruct (decide (in_degree d node = 0%nat)) as [Hin|Hin].
      - rewrite (bind_ok _ _ _ _ _ (load_digraph_ok _ _ _ HD)).
        destruct (decide (0 < out_degree d node)%nat) as [Hout|Hout].
        + rewrite (names_add_ok _ _ _ _ Hc). eexists. split; [done|]. simpl.
          rewrite lookup_insert_eq, lookup_insert_ne by done.
          split_and!; [done..|]. intros l ? ?. by rewrite lookup_insert_ne.
        + exists h. done.
      - rewrite (bind_ok _ _ _ _ _ (names_contains_ok _ _ _ _ Hfs)).
        destruct (decide (node ∈ f)) as [Hf|Hf].
        + rewrite bool_decide_eq_true_2 by done.
          rewrite (names_add_ok _ _ _ _ Hv). eexists. split; [done|]. simpl.
          rewrite lookup_insert_eq, lookup_insert_ne by done.
          split_and!; [done..|]. intros l ? ?. by rewrite lookup_insert_ne.
        + rewrite bool_decide_eq_false_2 by done. exists h. done. }
    rewrite (bind_ok _ _ _ _ _ Hrun).
    destruct (IH h1 (Frontend.body d f st node)) as (h' & Hrun' & ? & ? & Hfr');
      [rewrite Hfr by done; done..|done|done|].
    exists h'. split_and!; [done..|].
    intros l ? ?. by rewrite Hfr', Hfr.
Qed.

Lemma fresh_insert (l k : loc) (o : pyobj) (h : heap) :
  l ∉ dom (<[k := o]> h) → l ≠ k ∧ l ∉ dom h.
Proof. rewrite dom_insert_L, not_elem_of_union, not_elem_of_singleton. done. Qed.

(** Line 99 and line 153: a missing set is replaced by a new empty set. *)
Lemma optional_names_store (h : heap) (arg : option loc)
    (value : option (gset string)) :
  names_arg h arg value →
  ∃ fs h0,
    (match arg with None => alloc (PyNames ∅) | Some l => mret l end) h
      = (Ok fs, h0) ∧
    h0 !! fs = Some (PyNames (default ∅ value)) ∧
    dom h ⊆ dom h0 ∧ ∀ l, l ∈ dom h → h0 !! l = h !! l.
Proof.
  intros Harg. destruct arg as [l|], value as [s|]; simpl in Harg; try done.
  - exists l, h. done.
  - destruct (alloc_fresh (PyNames ∅) h) as (l & -> & Hl).
    eexists _, _. split; [done|]. rewrite lookup_insert_eq.
    split_and!; [done|set_solver|].
    intros l' Hl'. rewrite lookup_insert_ne; [done|]. by intros ->.
Qed.

(** [nx.DiGraph(G)] on the store. *)
Lemma new_DiGraph_store (h : heap) (G : loc) (g : MultiDiGraph) :
  h !! G = Some (PyMultiDiGraph g) →
  ∃ D, new_DiGraph G h = (Ok D, <[D := PyDiGraph (nx_DiGraph g)]> h) ∧ D ∉ dom h.
Proof.
  intros HG. destruct (alloc_fresh (PyDiGraph (nx_DiGraph g)) h) as (D & HD & ?).
  exists D. split; [|done]. unfold new_DiGraph.
  by rewrite (bind_ok _ _ _ _ _ (load_ok _ _ _ HG)).
Qed.

(** [detect_frontend_integration] on the store: it returns references to two
    new sets, holding what the function on values computes, and every object
    that was in the store before is as it was. *)
Lemma detect_frontend_integration_store (h : heap) (G : loc) (g : MultiDiGraph)
    (arg : option loc) (frontend_services : option (gset string)) :
  h !! G = Some (PyMultiDiGraph g) →
  names_arg h arg frontend_services →
  ∃ lc lv h',
    Store.detect_frontend_integration G arg h = (Ok (lc, lv), h') ∧
    (lc ∉ dom h) ∧ (lv ∉ dom h) ∧ lc ≠ lv ∧
    h' !! lc = Some (PyNames
                 (Frontend.detect_frontend_integration g frontend_services).1) ∧
    h' !! lv = Some (PyNames
                 (Frontend.detect_frontend_integration g frontend_services).2) ∧
    ∀ l, l ∈ dom h → h' !! l = h !! l.
Proof.
  intros HG Harg. unfold Store.detect_frontend_integration.
  destruct (optional_names_store h arg frontend_services Harg)
    as (fs & h0 & Hrun0 & Hfs & Hsub0 & Hfr0).
  rewrite (bind_ok _ _ _ _ _ Hrun0).
  assert (h0 !! G = Some (PyMultiDiGraph g)) as HG0.
  { rewrite Hfr0; [done|]. by apply elem_of_dom. }
  destruct (new_DiGraph_store h0 G g HG0) as (D & HnewD & HD).
  rewrite (bind_ok _ _ _ _ _ HnewD).
  set (h1 := <[D := PyDiGraph (nx_DiGraph g)]> h0).
  destruct (alloc_fresh (PyNames ∅) h1) as (lc & Hrunc & Hlc).
  rewrite (bind_ok _ _ _ _ _ Hrunc).
  set (h2 := <[lc := PyNames ∅]> h1).
  destruct (alloc_fresh (PyNames ∅) h2) as (lv & Hrunv & Hlv).
  rewrite (bind_ok _ _ _ _ _ Hrunv).
  set (h3 := <[lv := PyNames ∅]> h2).
  assert (lc ≠ D ∧ lv ≠ D ∧ lv ≠ lc ∧ (lc ∉ dom h0) ∧ (lv ∉ dom h0) ∧ (D ∉ dom h0))
    as (HcD & HvD & Hvc & Hc0 & Hv0 & HD0).
  { unfold h2, h1 in *. rewrite ?dom_insert_L in *. set_solver. }
  assert (fs ∈ dom h0) as Hfs0 by (by apply elem_of_dom).
  assert (h3 !! D = Some (PyDiGraph (nx_DiGraph g))) as HD3.
  { unfold h3, h2, h1. by rewrite !lookup_insert_ne, lookup_insert_eq by done. }
  assert (in_degree_view D h3 =
          (Ok ((λ n, (n, in_degree (nx_DiGraph g) n)) <$> nodes (nx_DiGraph g)), h3))
    as Hview.
  { unfold in_degree_view. by rewrite (bind_ok _ _ _ _ _ (load_digraph_ok _ _ _ HD3)). }
  rewrite (bind_ok _ _ _ _ _ Hview).
  destruct (frontend_loop_store D fs lc lv (nx_DiGraph g)
              (default ∅ frontend_services) (nodes (nx_DiGraph g)) h3
              {| Frontend.frontend_candidates := ∅;
                 Frontend.frontend_violators := ∅ |})
    as (h' & Hloop & Hc' & Hv' & Hfr'); try done.
  { intros ->. done. }
  { intros ->. done. }
  { unfold h3, h2, h1. rewrite !lookup_insert_ne; [done|..]; by intros ->. }
  { unfold h3, h2. by rewrite lookup_insert_ne, lookup_insert_eq. }
  { unfold h3. by rewrite lookup_insert_eq. }
  rewrite (bind_ok _ _ _ _ _ Hloop). simpl.
  exists lc, lv, h'. split; [done|].
  split_and!; [set_solver|set_solver|done|done|done|].
  intros l Hl. assert (l ∈ dom h0) as Hl0 by set_solver.
  rewrite Hfr' by (intros ->; done).
  unfold h3, h2, h1. rewrite !lookup_insert_ne by (intros ->; done).
  by apply Hfr0.
Qed.

End frontend_store.

(** ** The store: information holder resource *)

Section ihr_store.
Import Graph Store.

Ltac heap_lookup :=
  repeat first
    [ rewrite lookup_insert_eq
    | rewrite lookup_insert_ne by done ].

Section with_refs.
Variables (D db lc lv lcv lno : loc) (d : DiGraph) (dbs : gset string).
Hypothesis Hnodup : NoDup [D; db; lc; lv; lcv; lno].

Lemma inspect_preds_store (node : string) (h : heap) (st : IHR.locals) :
  h !! D = Some (PyDiGraph d) →
  ihr_repr lc lv lcv lno st h →
  ∃ h1,
    Store.inspect_preds D lc lv lno node h = (Ok tt, h1) ∧
    ihr_repr lc lv lcv lno (IHR.inspect_preds d st node) h1 ∧
    ∀ l, l ∉ [lc; lv; lcv; lno] → h1 !! l = h !! l.
Proof.
  intros HD (Hc & Hv & Hcv & Hno).
  rewrite !NoDup_cons, !not_elem_of_cons in Hnodup. destruct_and!.
  unfold Store.inspect_preds, IHR.inspect_preds.
  rewrite (bind_ok _ _ _ _ _ (load_digraph_ok _ _ _ HD)).
  destruct (decide (size (pred d node) = 1%nat)) as [Hsz|Hsz];
    [|by exists h].
  destruct (elements (pred d node)) as [|p ps]; [by exists h|].
  rewrite (bind_ok _ _ _ _ _ (load_digraph_ok _ _ _ HD)).
  destruct (decide (size (succ d p) = 1%nat)) as [Hs|Hs].
  - rewrite (bind_ok _ _ _ _ _ (pairs_add_ok _ _ _ _ Hc)).
    erewrite names_discard_ok by (heap_lookup; done).
    eexists. split; [done|]. unfold ihr_repr. simpl. split.
    + heap_lookup. done.
    + intros l Hl. rewrite !not_elem_of_cons in Hl. destruct_and!.
      by heap_lookup.
  - rewrite (bind_ok _ _ _ _ _ (pairs_add_ok _ _ _ _ Hv)).
    erewrite names_discard_ok by (heap_lookup; done).
    eexists. split; [done|]. unfold ihr_repr. simpl. split.
    + heap_lookup. done.
    + intros l Hl. rewrite !not_elem_of_cons in Hl. destruct_and!.
      by heap_lookup.
Qed.

Lemma ihr_body_store (node : string) (h : heap) (st : IHR.locals) :
  h !! D = Some (PyDiGraph d) →
  h !! db = Some (PyNames dbs) →
  ihr_repr lc lv lcv lno st h →
  ∃ h1,
    ihr_body D db lc lv lcv lno (node, out_degree d node) h = (Ok tt, h1) ∧
    ihr_repr lc lv lcv lno (IHR.body d dbs st node) h1 ∧
    ∀ l, l ∉ [lc; lv; lcv; lno] → h1 !! l = h !! l.
Proof.
  intros HD Hdb Hrepr. unfold ihr_body, IHR.body.
  rewrite (bind_ok _ _ _ _ _ (names_contains_ok _ _ _ _ Hdb)).
  assert (∃ h1,
    (if bool_decide (out_degree d node = 0%nat) || bool_decide (node ∈ dbs)
     then Store.inspect_preds D lc lv lno node else mret tt) h = (Ok tt, h1) ∧
    ihr_repr lc lv lcv lno
      (if bool_decide (out_degree d node = 0%nat) || bool_decide (node ∈ dbs)
       then IHR.inspect_preds d st node else st) h1 ∧
    ∀ l, l ∉ [lc; lv; lcv; lno] → h1 !! l = h !! l)
    as (h1 & Hrun & Hrepr1 & Hfr).
  { destruct (_ || _); [by apply inspect_preds_store|by exists h]. }
  rewrite (bind_ok _ _ _ _ _ Hrun).
  destruct (negb _ && _); [|by exists h1].
  destruct Hrepr1 as (Hc & Hv & Hcv & Hno).
  pose proof Hnodup as Hnd.
  rewrite !NoDup_cons, !not_elem_of_cons in Hnd. destruct_and!.
  rewrite (names_add_ok _ _ _ _ Hcv). eexists. split; [done|].
  unfold ihr_repr. simpl. split.
  - heap_lookup. done.
  - intros l Hl. rewrite <- Hfr by done.
    rewrite !not_elem_of_cons in Hl. destruct_and!. by heap_lookup.
Qed.

Lemma ihr_loop_store (items : list string) (h : heap) (st : IHR.locals) :
  h !! D = Some (PyDiGraph d) →
  h !! db = Some (PyNames dbs) →
  ihr_repr lc lv lcv lno st h →
  ∃ h',
    for_each (ihr_body D db lc lv lcv lno)
      ((λ n, (n, out_degree d n)) <$> items) h = (Ok tt, h') ∧
    ihr_repr lc lv lcv lno (foldl (IHR.body d dbs) st items) h' ∧
    ∀ l, l ∉ [lc; lv; lcv; lno] → h' !! l = h !! l.
Proof.
  revert h st. induction items as [|node items IH]; intros h st HD Hdb Hrepr.
  - by exists h.
  - simpl.
    destruct (ihr_body_store node h st) as (h1 & Hrun & Hrepr1 & Hfr);
      [done..|].
    rewrite (bind_ok _ _ _ _ _ Hrun).
    assert ((D ∉ [lc; lv; lcv; lno]) ∧ (db ∉ [lc; lv; lcv; lno])) as [HD' Hdb'].
    { pose proof Hnodup as Hnd.
      rewrite !NoDup_cons, !not_elem_of_cons in Hnd.
      rewrite !not_elem_of_cons. destruct_and!. split_and!; done. }
    destruct (IH h1 (IHR.body d dbs st node)) as (h' & Hrun' & Hrepr' & Hfr');
      [by rewrite Hfr..|done|].
    exists h'. split_and!; [done..|].
    intros l Hl. by rewrite Hfr', Hfr.
Qed.

End with_refs.

(** [detect_information_holder_resource] on the store: it returns
    references to four new sets, holding what the function on values
    computes, and every object that was in the store before is as it was. *)
Lemma detect_information_holder_resource_store (h : heap) (G : loc)
    (g : MultiDiGraph) (arg : option loc) (database_services : option (gset string)) :
  h !! G = Some (PyMultiDiGraph g) →
  names_arg h arg database_services →
  ∃ lc lv lcv lno h',
    Store.detect_information_holder_resource G arg h
      = (Ok (lc, lv, lcv, lno), h') ∧
    NoDup [lc; lv; lcv; lno] ∧
    (∀ l, l ∈ [lc; lv; lcv; lno] → l ∉ dom h) ∧
    (let '(c, v, cv, no) :=
       IHR.detect_information_holder_resource g database_services in
     h' !! lc = Some (PyPairs c) ∧ h' !! lv = Some (PyPairs v) ∧
     h' !! lcv = Some (PyNames cv) ∧ h' !! lno = Some (PyNames no)) ∧
    ∀ l, l ∈ dom h → h' !! l = h !! l.
Proof.
  intros HG Harg. unfold Store.detect_information_holder_resource.
  destruct (optional_names_store h arg database_services Harg)
    as (db & h0 & Hrun0 & Hdb & Hsub0 & Hfr0).
  rewrite (bind_ok _ _ _ _ _ Hrun0).
  assert (h0 !! G = Some (PyMultiDiGraph g)) as HG0.
  { rewrite Hfr0; [done|]. by apply elem_of_dom. }
  destruct (new_DiGraph_store h0 G g HG0) as (D & HnewD & HD).
  rewrite (bind_ok _ _ _ _ _ HnewD).
  set (h1 := <[D := PyDiGraph (nx_DiGraph g)]> h0).
  destruct (alloc_fresh (PyPairs ∅) h1) as (lc & Hrunc & Hlc).
  rewrite (bind_ok _ _ _ _ _ Hrunc).
  set (h2 := <[lc := PyPairs ∅]> h1).
  destruct (alloc_fresh (PyPairs ∅) h2) as (lv & Hrunv & Hlv).
  rewrite (bind_ok _ _ _ _ _ Hrunv).
  set (h3 := <[lv := PyPairs ∅]> h2).
  destruct (alloc_fresh (PyNames ∅) h3) as (lcv & Hruncv & Hlcv).
  rewrite (bind_ok _ _ _ _ _ Hruncv).
  set (h4 := <[lcv := PyNames ∅]> h3).
  destruct (alloc_fresh (PyNames (default ∅ database_services)) h4)
    as (lno & Hrunno & Hlno).
  set (h5 := <[lno := PyNames (default ∅ database_services)]> h4).
  assert (db ∈ dom h0) as Hdb0 by (by apply elem_of_dom).
  unfold h4, h3, h2, h1 in Hlc, Hlv, Hlcv, Hlno.
  repeat match goal with
         | H : _ ∉ dom (<[_ := _]> _) |- _ => apply fresh_insert in H as [? H]
         end.
  assert (db ≠ D ∧ db ≠ lc ∧ db ≠ lv ∧ db ≠ lcv ∧ db ≠ lno)
    as (? & ? & ? & ? & ?) by (split_and!; intros ->; done).
  assert (NoDup [D; db; lc; lv; lcv; lno]) as Hnd.
  { rewrite !NoDup_cons, !not_elem_of_cons. split_and!; try done.
    all: first [apply not_elem_of_nil|constructor]. }
  assert (∀ l, l ∈ [lc; lv; lcv; lno] → l ∉ dom h0) as Hnew.
  { intros l. rewrite !elem_of_cons, elem_of_nil.
    intros [->|[->|[->|[->|[]]]]]; done. }
  assert (names_copy db h4 = (Ok lno, h5)) as Hcopy.
  { unfold names_copy. erewrite bind_ok; [done|]. apply load_names_ok.
    unfold h4, h3, h2, h1. by heap_lookup. }
  rewrite (bind_ok _ _ _ _ _ Hcopy).
  assert (h5 !! D = Some (PyDiGraph (nx_DiGraph g))) as HD5.
  { unfold h5, h4, h3, h2, h1. by heap_lookup. }
  assert (out_degree_view D h5 =
          (Ok ((λ n, (n, out_degree (nx_DiGraph g) n)) <$> nodes (nx_DiGraph g)), h5))
    as Hview.
  { unfold out_degree_view.
    by rewrite (bind_ok _ _ _ _ _ (load_digraph_ok _ _ _ HD5)). }
  rewrite (bind_ok _ _ _ _ _ Hview).
  destruct (ihr_loop_store D db lc lv lcv lno (nx_DiGraph g)
              (default ∅ database_services) Hnd (nodes (nx_DiGraph g)) h5
              {| IHR.ihr_candidates := ∅; IHR.ihr_violators := ∅;
                 IHR.database_call_violators := ∅;
                 IHR.database_no_ihr_violators := default ∅ database_services |})
    as (h' & Hloop & Hrepr & Hfr'); [done| | |].
  { unfold h5, h4, h3, h2, h1. by heap_lookup. }
  { unfold ihr_repr, h5, h4, h3, h2. simpl. split_and!; by heap_lookup. }
  rewrite (bind_ok _ _ _ _ _ Hloop). simpl.
  exists lc, lv, lcv, lno, h'. split; [done|]. split; [|split; [|split]].
  - rewrite !NoDup_cons, !not_elem_of_cons. split_and!; try done.
    all: first [apply not_elem_of_nil|constructor].
  - intros l Hl Hdom. apply (Hnew l Hl). by apply Hsub0.
  - exact Hrepr.
  - intros l Hl. assert (l ∈ dom h0) as Hl0 by (by apply Hsub0).
    rewrite Hfr'.
    + unfold h5, h4, h3, h2, h1.
      rewrite !lookup_insert_ne; [by apply Hfr0|..]; by intros ->.
    + intros Hin. by apply (Hnew l).
Qed.

End ihr_store.


(** ** The store: request bundles *)

Section bundle_store.
Import Store.

Section with_refs.
Variables (lbs lbe : loc) (threshold_service threshold_endpoint : Z).
Hypothesis Hne : lbs ≠ lbe.

Lemma step_service_store (k : Bundle.service_key) (h : heap) (st : Bundle.locals) :
  bundle_repr lbs lbe st h →
  ∃ h1,
    (∀ l, l ≠ lbs → l ≠ lbe → h1 !! l = h !! l) ∧
    match Bundle.step_service threshold_service k st with
    | Ok st' =>
        step_service lbs threshold_service k (lower st) h = (Ok (lower st'), h1) ∧
        bundle_repr lbs lbe st' h1
    | Raise e =>
        step_service lbs threshold_service k (lower st) h = (Raise e, h1)
    end.
Proof.
  intros [Hbs Hbe]. unfold step_service, Bundle.step_service. simpl.
  destruct (decide (Some k = Bundle.last_call_service st)); [by exists h|].
  destruct (decide (threshold_service ≤ Bundle.count_service st)) as [Hth|Hth];
    [|by exists h].
  destruct (Bundle.star_service _ _) as [b|e]; [|by exists h].
  rewrite (bind_ok _ _ _ _ _ (append_service_ok _ _ _ b Hbs)). simpl.
  eexists. split; [|split; [done|split]].
  - intros l ? ?. by rewrite lookup_insert_ne.
  - by rewrite lookup_insert_eq.
  - by rewrite lookup_insert_ne.
Qed.

Lemma step_endpoint_store (k : Bundle.endpoint_key) (h : heap) (st : Bundle.locals) :
  bundle_repr lbs lbe st h →
  ∃ h1,
    (∀ l, l ≠ lbs → l ≠ lbe → h1 !! l = h !! l) ∧
    match Bundle.step_endpoint threshold_endpoint k st with
    | Ok st' =>
        step_endpoint lbe threshold_endpoint k (lower st) h = (Ok (lower st'), h1) ∧
        bundle_repr lbs lbe st' h1
    | Raise e =>
        step_endpoint lbe threshold_endpoint k (lower st) h = (Raise e, h1)
    end.
Proof.
  intros [Hbs Hbe]. unfold step_endpoint, Bundle.step_endpoint. simpl.
  destruct (decide (Some k = Bundle.last_call_endpoint st)); [by exists h|].
  destruct (decide (threshold_endpoint ≤ Bundle.count_endpoint st)) as [Hth|Hth];
    [|by exists h].
  destruct (Bundle.star_endpoint _ _) as [b|e]; [|by exists h].
  rewrite (bind_ok _ _ _ _ _ (append_endpoint_ok _ _ _ b Hbe)). simpl.
  eexists. split; [|split; [done|split]].
  - intros l ? ?. by rewrite lookup_insert_ne.
  - by rewrite lookup_insert_ne.
  - by rewrite lookup_insert_eq.
Qed.

Lemma bundle_body_store (c : Bundle.Call) (h : heap) (st : Bundle.locals) :
  bundle_repr lbs lbe st h →
  ∃ h1,
    (∀ l, l ≠ lbs → l ≠ lbe → h1 !! l = h !! l) ∧
    match Bundle.body threshold_service threshold_endpoint st c with
    | Ok st' =>
        bundle_body lbs lbe threshold_service threshold_endpoint (lower st) c h
          = (Ok (lower st'), h1) ∧
        bundle_repr lbs lbe st' h1
    | Raise e =>
        bundle_body lbs lbe threshold_service threshold_endpoint (lower st) c h
          = (Raise e, h1)
    end.
Proof.
  intros Hrepr. unfold bundle_body, Bundle.body.
  destruct (step_service_store (Bundle.call_service c) h st Hrepr)
    as (h1 & Hfr1 & Hstep1).
  destruct (Bundle.step_service _ _ st) as [st1|e]; simpl.
  - destruct Hstep1 as [Hrun1 Hrepr1]. rewrite (bind_ok _ _ _ _ _ Hrun1).
    destruct (step_endpoint_store (Bundle.call_endpoint c) h1 st1 Hrepr1)
      as (h2 & Hfr2 & Hstep2).
    exists h2. split; [|done]. intros l ? ?. by rewrite Hfr2, Hfr1.
  - exists h1. split; [done|]. by rewrite (bind_raise _ _ _ _ _ Hstep1).
Qed.

Lemma bundle_loop_store (calls : list Bundle.Call) (h : heap) (st : Bundle.locals) :
  bundle_repr lbs lbe st h →
  ∃ h',
    (∀ l, l ≠ lbs → l ≠ lbe → h' !! l = h !! l) ∧
    match Bundle.loop threshold_service threshold_endpoint st calls with
    | Ok st' =>
        bundle_loop lbs lbe threshold_service threshold_endpoint (lower st) calls h
          = (Ok tt, h') ∧
        bundle_repr lbs lbe st' h'
    | Raise e =>
        bundle_loop lbs lbe threshold_service threshold_endpoint (lower st) calls h
          = (Raise e, h')
    end.
Proof.
  revert h st. induction calls as [|c calls IH]; intros h st Hrepr; simpl.
  - by exists h.
  - destruct (bundle_body_store c h st Hrepr) as (h1 & Hfr1 & Hbody).
    destruct (Bundle.body _ _ st c) as [st1|e]; simpl.
    + destruct Hbody as [Hrun1 Hrepr1]. rewrite (bind_ok _ _ _ _ _ Hrun1).
      destruct (IH h1 st1 Hrepr1) as (h' & Hfr' & Hloop).
      exists h'. split; [|done]. intros l ? ?. by rewrite Hfr', Hfr1.
    + exists h1. split; [done|]. by rewrite (bind_raise _ _ _ _ _ Hbody).
Qed.

End with_refs.

(** [detect_request_bundle] on the store: it returns references to two new
    lists, holding what the function on values computes, or raises the same
    exception; either way every object that was in the store before is as it
    was. *)
Lemma detect_request_bundle_store (h : heap) (pipeline : loc)
    (calls : list Bundle.Call) (threshold_service threshold_endpoint : Z) :
  h !! pipeline = Some (PyPipeline calls) →
  ∃ r h',
    Store.detect_request_bundle pipeline threshold_service threshold_endpoint h
      = (r, h') ∧
    (∀ l, l ∈ dom h → h' !! l = h !! l) ∧
    match Bundle.detect_request_bundle calls threshold_service threshold_endpoint with
    | Ok (bs, be) =>
        ∃ lbs lbe, r = Ok (lbs, lbe) ∧ lbs ≠ lbe ∧
          (lbs ∉ dom h) ∧ (lbe ∉ dom h) ∧
          h' !! lbs = Some (PyServiceBundles bs) ∧
          h' !! lbe = Some (PyEndpointBundles be)
    | Raise e => r = Raise e
    end.
Proof.
  intros Hp. unfold Store.detect_request_bundle, Bundle.detect_request_bundle.
  destruct (alloc_fresh (PyServiceBundles []) h) as (lbs & Hrun1 & Hlbs).
  rewrite (bind_ok _ _ _ _ _ Hrun1).
  set (h1 := <[lbs := PyServiceBundles []]> h).
  destruct (alloc_fresh (PyEndpointBundles []) h1) as (lbe & Hrun2 & Hlbe).
  rewrite (bind_ok _ _ _ _ _ Hrun2).
  set (h2 := <[lbe := PyEndpointBundles []]> h1).
  unfold h1 in Hlbe. apply fresh_insert in Hlbe as [Hne Hlbe].
  assert (pipeline ∈ dom h) as Hpd by (by apply elem_of_dom).
  assert (h2 !! pipeline = Some (PyPipeline calls)) as Hp2.
  { unfold h2, h1. rewrite !lookup_insert_ne; [done|..]; by intros ->. }
  rewrite (bind_ok _ _ _ _ _ (load_pipeline_ok _ _ _ Hp2)).
  destruct (bundle_loop_store lbs lbe threshold_service threshold_endpoint
              (not_eq_sym Hne) calls h2 Bundle.init)
    as (h' & Hfr & Hloop).
  { split; unfold h2, h1; simpl.
    - by rewrite lookup_insert_ne, lookup_insert_eq.
    - by rewrite lookup_insert_eq. }
  assert (∀ l, l ∈ dom h → h' !! l = h !! l) as Hframe.
  { intros l Hl. rewrite Hfr by (by intros ->). unfold h2, h1.
    rewrite !lookup_insert_ne; [done|..]; by intros ->. }
  change {| last_call_service := None; last_call_endpoint := None;
            count_service := 1; count_endpoint := 1 |} with (lower Bundle.init).
  destruct (Bundle.loop _ _ Bundle.init calls) as [st'|e]; simpl.
  - destruct Hloop as [Hrun [Hbs Hbe]]. rewrite (bind_ok _ _ _ _ _ Hrun). simpl.
    eexists _, h'. split; [done|]. split; [done|].
    exists lbs, lbe. split_and!; done.
  - rewrite (bind_raise _ _ _ _ _ Hloop). eexists _, h'. done.
Qed.

End bundle_store.

(** ** The claims on the caller's objects *)

Section store_claims.
Import Graph Store.

Lemma names_arg_frame (h h' : heap) (arg : option loc)
    (value : option (gset string)) :
  names_arg h arg value →
  (∀ l, l ∈ dom h → h' !! l = h !! l) →
  names_arg h' arg value.
Proof.
  destruct arg as [l|], value as [s|]; simpl; try done.
  intros Hl Hfr. rewrite Hfr; [done|]. by apply elem_of_dom.
Qed.

Lemma lookup_frame (h h' : heap) (l : loc) (o : pyobj) :
  (∀ l, l ∈ dom h → h' !! l = h !! l) →
  h !! l = Some o → h' !! l = Some o.
Proof. intros Hfr Hl. rewrite Hfr; [done|]. by apply elem_of_dom. Qed.

(** C8. Every object that is in the store when a detector is called, and
    so the pipeline, the graph and the declared sets, is the same object
    with the same content when the call is over. *)
Theorem detectors_leave_inputs_unchanged (h : heap) (l : loc) (o : pyobj) :
  h !! l = Some o →
  (∀ pipeline calls threshold_service threshold_endpoint,
     h !! pipeline = Some (PyPipeline calls) →
     (Store.detect_request_bundle pipeline threshold_service threshold_endpoint h).2
       !! l = Some o) ∧
  (∀ G g arg frontend_services,
     h !! G = Some (PyMultiDiGraph g) →
     names_arg h arg frontend_services →
     (Store.detect_frontend_integration G arg h).2 !! l = Some o) ∧
  (∀ G g arg database_services,
     h !! G = Some (PyMultiDiGraph g) →
     names_arg h arg database_services →
     (Store.detect_information_holder_resource G arg h).2 !! l = Some o).
Proof.
  intros Hl. split_and!.
  - intros pipeline calls ts te Hp.
    destruct (detect_request_bundle_store h pipeline calls ts te Hp)
      as (r & h' & -> & Hfr & _).
    by apply (lookup_frame h).
  - intros G g arg fs HG Harg.
    destruct (detect_frontend_integration_store h G g arg fs HG Harg)
      as (lc & lv & h' & -> & _ & _ & _ & _ & _ & Hfr).
    by apply (lookup_frame h).
  - intros G g arg dbs HG Harg.
    destruct (detect_information_holder_resource_store h G g arg dbs HG Harg)
      as (lc & lv & lcv & lno & h' & -> & _ & _ & _ & Hfr).
    by apply (lookup_frame h).
Qed.

Lemma detectors_leave_inputs_unchanged_witness :
  (h1 !! 2%positive = Some (PyNames {[ "S"; "Z" ]}) ∧
   h1 !! 1%positive = Some (PyMultiDiGraph G1) ∧
   h1 !! 3%positive = Some (PyPipeline three_calls) ∧
   names_arg h1 (Some 2%positive) (Some {[ "S"; "Z" ]})) ∧
  (Store.detect_request_bundle 3%positive 2 2 h1).2 !! 2%positive
    = Some (PyNames {[ "S"; "Z" ]}) ∧
  (Store.detect_frontend_integration 1%positive (Some 2%positive) h1).2
    !! 2%positive = Some (PyNames {[ "S"; "Z" ]}) ∧
  (Store.detect_information_holder_resource 1%positive (Some 2%positive) h1).2
    !! 2%positive = Some (PyNames {[ "S"; "Z" ]}).
Proof.
  assert (h1 !! 2%positive = Some (PyNames {[ "S"; "Z" ]})) as H2 by reflexivity.
  assert (h1 !! 1%positive = Some (PyMultiDiGraph G1)) as H1 by reflexivity.
  assert (h1 !! 3%positive = Some (PyPipeline three_calls)) as H3 by reflexivity.
  assert (names_arg h1 (Some 2%positive) (Some {[ "S"; "Z" ]})) as H4
    by reflexivity.
  destruct (detectors_leave_inputs_unchanged h1 _ _ H2) as (Hb & Hf & Hi).
  split; [done|]. split_and!.
  - by apply (Hb _ three_calls).
  - by apply (Hf _ G1 _ (Some {[ "S"; "Z" ]})).
  - by apply (Hi _ G1 _ (Some {[ "S"; "Z" ]})).
Defined.

(** C9. A detector called twice in a row on the same arguments returns two
    results with the same content: equal lists for [detect_request_bundle]
    (or twice the same exception), equal sets for the two graph detectors;
    the content is what the function on values computes. *)
Theorem detectors_repeatable (h : heap) :
  (∀ pipeline calls threshold_service threshold_endpoint,
     h !! pipeline = Some (PyPipeline calls) →
     let run := Store.detect_request_bundle pipeline
                  threshold_service threshold_endpoint in
     let h' := (run (run h).2).2 in
     match Bundle.detect_request_bundle calls threshold_service threshold_endpoint with
     | Ok (bs, be) =>
         ∃ lbs1 lbe1 lbs2 lbe2,
           (run h).1 = Ok (lbs1, lbe1) ∧ (run (run h).2).1 = Ok (lbs2, lbe2) ∧
           service_bundles_at h' lbs1 = Some bs ∧
           service_bundles_at h' lbs2 = Some bs ∧
           endpoint_bundles_at h' lbe1 = Some be ∧
           endpoint_bundles_at h' lbe2 = Some be
     | Raise e => (run h).1 = Raise e ∧ (run (run h).2).1 = Raise e
     end) ∧
  (∀ G g arg frontend_services,
     h !! G = Some (PyMultiDiGraph g) →
     names_arg h arg frontend_services →
     let run := Store.detect_frontend_integration G arg in
     let h' := (run (run h).2).2 in
     let '(candidates, violators) :=
       Frontend.detect_frontend_integration g frontend_services in
     ∃ lc1 lv1 lc2 lv2,
       (run h).1 = Ok (lc1, lv1) ∧ (run (run h).2).1 = Ok (lc2, lv2) ∧
       names_at h' lc1 = Some candidates ∧ names_at h' lc2 = Some candidates ∧
       names_at h' lv1 = Some violators ∧ names_at h' lv2 = Some violators) ∧
  (∀ G g arg database_services,
     h !! G = Some (PyMultiDiGraph g) →
     names_arg h arg database_services →
     let run := Store.detect_information_holder_resource G arg in
     let h' := (run (run h).2).2 in
     let '(c, v, cv, no) :=
       IHR.detect_information_holder_resource g database_services in
     ∃ lc1 lv1 lcv1 lno1 lc2 lv2 lcv2 lno2,
       (run h).1 = Ok (lc1, lv1, lcv1, lno1) ∧
       (run (run h).2).1 = Ok (lc2, lv2, lcv2, lno2) ∧
       pairs_at h' lc1 = Some c ∧ pairs_at h' lc2 = Some c ∧
       pairs_at h' lv1 = Some v ∧ pairs_at h' lv2 = Some v ∧
       names_at h' lcv1 = Some cv ∧ names_at h' lcv2 = Some cv ∧
       names_at h' lno1 = Some no ∧ names_at h' lno2 = Some no).
Proof.
  split_and!.
  - intros pipeline calls ts te Hp run h'. subst h' run.
    destruct (detect_request_bundle_store h pipeline calls ts te Hp)
      as (r1 & h1' & -> & Hfr1 & Hres1). cbn [fst snd].
    destruct (detect_request_bundle_store h1' pipeline calls ts te
                (lookup_frame _ _ _ _ Hfr1 Hp))
      as (r2 & h2' & -> & Hfr2 & Hres2). cbn [fst snd].
    destruct (Bundle.detect_request_bundle calls ts te) as [[bs be]|e];
      [|done].
    destruct Hres1 as (lbs1 & lbe1 & -> & _ & _ & _ & Hbs1 & Hbe1).
    destruct Hres2 as (lbs2 & lbe2 & -> & _ & _ & _ & Hbs2 & Hbe2).
    exists lbs1, lbe1, lbs2, lbe2.
    unfold service_bundles_at, endpoint_bundles_at.
    rewrite (lookup_frame _ _ _ _ Hfr2 Hbs1), (lookup_frame _ _ _ _ Hfr2 Hbe1).
    by rewrite Hbs2, Hbe2.
  - intros G g arg fs HG Harg run h'. subst h' run.
    destruct (detect_frontend_integration_store h G g arg fs HG Harg)
      as (lc1 & lv1 & h1' & -> & _ & _ & _ & Hc1 & Hv1 & Hfr1). cbn [fst snd].
    destruct (detect_frontend_integration_store h1' G g arg fs
                (lookup_frame _ _ _ _ Hfr1 HG) (names_arg_frame _ _ _ _ Harg Hfr1))
      as (lc2 & lv2 & h2' & -> & _ & _ & _ & Hc2 & Hv2 & Hfr2). cbn [fst snd].
    destruct (Frontend.detect_frontend_integration g fs) as [c v].
    exists lc1, lv1, lc2, lv2. unfold names_at.
    rewrite (lookup_frame _ _ _ _ Hfr2 Hc1), (lookup_frame _ _ _ _ Hfr2 Hv1).
    by rewrite Hc2, Hv2.
  - intros G g arg dbs HG Harg run h'. subst h' run.
    destruct (detect_information_holder_resource_store h G g arg dbs HG Harg)
      as (lc1 & lv1 & lcv1 & lno1 & h1' & -> & _ & _ & Hres1 & Hfr1). cbn [fst snd].
    destruct (detect_information_holder_resource_store h1' G g arg dbs
                (lookup_frame _ _ _ _ Hfr1 HG) (names_arg_frame _ _ _ _ Harg Hfr1))
      as (lc2 & lv2 & lcv2 & lno2 & h2' & -> & _ & _ & Hres2 & Hfr2). cbn [fst snd].
    destruct (IHR.detect_information_holder_resource g dbs) as [[[c v] cv] no].
    destruct Hres1 as (Hc1 & Hv1 & Hcv1 & Hno1).
    destruct Hres2 as (Hc2 & Hv2 & Hcv2 & Hno2).
    exists lc1, lv1, lcv1, lno1, lc2, lv2, lcv2, lno2.
    unfold names_at, pairs_at.
    rewrite (lookup_frame _ _ _ _ Hfr2 Hc1), (lookup_frame _ _ _ _ Hfr2 Hv1),
      (lookup_frame _ _ _ _ Hfr2 Hcv1), (lookup_frame _ _ _ _ Hfr2 Hno1).
    by rewrite Hc2, Hv2, Hcv2, Hno2.
Qed.

Lemma detectors_repeatable_witness :
  (h1 !! 1%positive = Some (PyMultiDiGraph G1) ∧
   names_arg h1 (Some 2%positive) (Some {[ "S"; "Z" ]})) ∧
  let run := Store.detect_information_holder_resource 1%positive (Some 2%positive) in
  let h' := (run (run h1).2).2 in
  ∃ lc1 lv1 lcv1 lno1 lc2 lv2 lcv2 lno2,
    (run h1).1 = Ok (lc1, lv1, lcv1, lno1) ∧
    (run (run h1).2).1 = Ok (lc2, lv2, lcv2, lno2) ∧
    pairs_at h' lc1 = pairs_at h' lc2 ∧ pairs_at h' lv1 = pairs_at h' lv2 ∧
    names_at h' lcv1 = names_at h' lcv2 ∧ names_at h' lno1 = names_at h' lno2 ∧
    is_Some (names_at h' lno1).
Proof.
  assert (h1 !! 1%positive = Some (PyMultiDiGraph G1)) as H1 by reflexivity.
  assert (names_arg h1 (Some 2%positive) (Some {[ "S"; "Z" ]})) as H2
    by reflexivity.
  split; [done|].
  destruct (detectors_repeatable h1) as (_ & _ & Hi).
  specialize (Hi _ _ _ _ H1 H2). cbv zeta in Hi |- *.
  destruct (IHR.detect_information_holder_resource G1 (Some {[ "S"; "Z" ]}))
    as [[[c v] cv] no].
  destruct Hi as (lc1 & lv1 & lcv1 & lno1 & lc2 & lv2 & lcv2 & lno2 &
                  E1 & E2 & Hc1 & Hc2 & Hv1 & Hv2 & Hcv1 & Hcv2 & Hno1 & Hno2).
  exists lc1, lv1, lcv1, lno1, lc2, lv2, lcv2, lno2.
  rewrite Hc1, Hc2, Hv1, Hv2, Hcv1, Hcv2, Hno1, Hno2. split_and!; done.
Defined.

End store_claims.

(** * Further properties *)

(** ** Runs: more facts *)

Section more_runs_facts.
Import Runs.
Context {K : Type} `{EqDecision K}.

(** A run that a different key ends is one entry of the list of runs. *)
Lemma runs_from_replicate (k k' : K) (count : Z) (m : nat) (rest : list K) :
  k' ≠ k →
  runs_from k count (replicate m k ++ k' :: rest) =
  (k, count + Z.of_nat m) :: runs_from k' 1 rest.
Proof.
  intros Hk. revert count. induction m as [|m IH]; intros count; simpl.
  - rewrite decide_False by done. do 2 f_equal. lia.
  - rewrite decide_True by done. rewrite IH. do 2 f_equal. lia.
Qed.

Lemma closed_runs_from_middle (lst : K) (count : Z) (l : list K) (k k' : K)
    (m : nat) (rest : list K) :
  last (lst :: l) ≠ Some k → k' ≠ k →
  (k, Z.of_nat (S m)) ∈
    removelast (runs_from lst count (l ++ replicate (S m) k ++ k' :: rest)).
Proof.
  intros Hlast Hk. revert lst count Hlast.
  induction l as [|a l IH]; intros lst count Hlast.
  - simpl in Hlast. assert (k ≠ lst) as Hne by congruence.
    simpl. rewrite decide_False by done.
    rewrite runs_from_replicate by done.
    rewrite !removelast_cons_ne by (done || apply runs_from_not_nil).
    apply elem_of_cons. right. apply elem_of_cons. left. do 2 f_equal. lia.
  - rewrite last_cons_cons in Hlast.
    change ((a :: l) ++ replicate (S m) k ++ k' :: rest)
      with (a :: (l ++ replicate (S m) k ++ k' :: rest)).
    cbn [runs_from]. case_decide as Ha.
    + subst a. by apply IH.
    + rewrite removelast_cons_ne by apply runs_from_not_nil.
      apply elem_of_cons. right. by apply IH.
Qed.

Lemma closed_runs_middle (l : list K) (k k' : K) (m : nat) (rest : list K) :
  last l ≠ Some k → k' ≠ k →
  (k, Z.of_nat (S m)) ∈ closed_runs (l ++ replicate (S m) k ++ k' :: rest).
Proof.
  intros Hlast Hk. unfold closed_runs. destruct l as [|a l].
  - simpl. rewrite runs_from_replicate by done.
    rewrite removelast_cons_ne by apply runs_from_not_nil.
    apply elem_of_cons. left. do 2 f_equal. lia.
  - by apply closed_runs_from_middle.
Qed.

(** A key that differs from the last one closes the last run. *)
Lemma closed_runs_from_snoc (lst : K) (count : Z) (l : list K) (k' : K) :
  last (lst :: l) ≠ Some k' →
  removelast (runs_from lst count (l ++ [k'])) = runs_from lst count l.
Proof.
  revert lst count. induction l as [|a l IH]; intros lst count Hlast.
  - simpl in Hlast. simpl. rewrite decide_False by congruence. done.
  - rewrite last_cons_cons in Hlast. simpl. case_decide as Ha.
    + subst a. by apply IH.
    + rewrite removelast_cons_ne by apply runs_from_not_nil. f_equal.
      by apply IH.
Qed.

Lemma closed_runs_snoc (l : list K) (k' : K) :
  last l ≠ Some k' → closed_runs (l ++ [k']) = runs l.
Proof.
  intros Hlast. unfold closed_runs. destruct l as [|a l]; [done|].
  by apply closed_runs_from_snoc.
Qed.

(** Every run is a block of the keys. *)
Lemma elem_of_expand (rs : list (K * Z)) (k : K) (n : Z) :
  (k, n) ∈ rs →
  ∃ l1 l2, expand rs = l1 ++ replicate (Z.to_nat n) k ++ l2.
Proof.
  induction rs as [|r rs IH]; [by intros ?%elem_of_nil|].
  intros [E|Hin]%elem_of_cons.
  - subst r. exists [], (expand rs). done.
  - destruct (IH Hin) as (l1 & l2 & E).
    exists (replicate (Z.to_nat r.2) r.1 ++ l1), l2.
    change (expand (r :: rs)) with (replicate (Z.to_nat r.2) r.1 ++ expand rs).
    rewrite E. by rewrite <- app_assoc.
Qed.

Lemma elem_of_removelast {A : Type} (x : A) (l : list A) :
  x ∈ removelast l → x ∈ l.
Proof.
  induction l as [|a l IH]; [done|]. destruct l as [|b l]; simpl.
  - by intros ?%elem_of_nil.
  - intros [->|Hin]%elem_of_cons; [by left|]. right. by apply IH.
Qed.

Lemma elem_of_meeting (threshold : Z) (rs : list (K * Z)) (r : K * Z) :
  r ∈ meeting threshold rs ↔ threshold ≤ r.2 ∧ r ∈ rs.
Proof. unfold meeting. by rewrite list_elem_of_filter. Qed.

Lemma total_runs_from (lst : K) (count : Z) (keys : list K) :
  total (runs_from lst count keys) = count + Z.of_nat (length keys).
Proof.
  revert lst count. induction keys as [|k rest IH]; intros lst count; simpl.
  - lia.
  - case_decide; [rewrite IH|simpl; rewrite IH]; lia.
Qed.

Lemma runs_from_positive (lst : K) (count : Z) (keys : list K) :
  0 < count → Forall (λ r, 0 < r.2) (runs_from lst count keys).
Proof.
  revert lst count. induction keys as [|k rest IH]; intros lst count Hc; simpl.
  - by repeat constructor.
  - case_decide; [apply IH; lia|]. constructor; [done|]. apply IH. lia.
Qed.

Lemma total_removelast (rs : list (K * Z)) :
  Forall (λ r, 0 < r.2) rs → rs ≠ [] → total (removelast rs) < total rs.
Proof.
  induction rs as [|r rs IH]; [done|]. intros [Hr Hrs]%Forall_cons _.
  destruct rs as [|r' rs]; [simpl; lia|].
  specialize (IH Hrs ltac:(done)).
  rewrite removelast_cons_ne by done.
  change (total (r :: removelast (r' :: rs)))
    with (r.2 + total (removelast (r' :: rs))).
  change (total (r :: r' :: rs)) with (r.2 + total (r' :: rs)). lia.
Qed.

Lemma Forall_removelast {A : Type} (P : A → Prop) (l : list A) :
  Forall P l → Forall P (removelast l).
Proof.
  intros Hl. apply Forall_forall. intros x Hx%elem_of_removelast.
  by eapply Forall_forall in Hl.
Qed.

Lemma total_meeting_le (threshold : Z) (rs : list (K * Z)) :
  Forall (λ r, 0 < r.2) rs → total (meeting threshold rs) ≤ total rs.
Proof.
  induction rs as [|r rs IH]; [done|]. intros [Hr Hrs]%Forall_cons.
  specialize (IH Hrs). unfold meeting in *. rewrite filter_cons.
  case_decide; simpl; lia.
Qed.

Lemma length_meeting_le (threshold : Z) (rs : list (K * Z)) :
  threshold * Z.of_nat (length (meeting threshold rs))
    ≤ total (meeting threshold rs).
Proof.
  induction rs as [|r rs IH]; [simpl; lia|].
  unfold meeting in *. rewrite filter_cons.
  case_decide; simpl in *; lia.
Qed.

(** The closed runs that meet the threshold: their lengths add up to less
    than the number of keys. *)
Lemma meeting_closed_runs_bound (threshold : Z) (keys : list K) :
  keys ≠ [] →
  total (meeting threshold (closed_runs keys)) < Z.of_nat (length keys).
Proof.
  intros Hk. destruct keys as [|k keys]; [done|]. unfold closed_runs.
  change (runs (k :: keys)) with (runs_from k 1 keys).
  pose proof (runs_from_positive k 1 keys ltac:(lia)) as Hpos.
  pose proof (total_removelast _ Hpos (runs_from_not_nil _ _ _)) as Hlt.
  rewrite total_runs_from in Hlt.
  pose proof (total_meeting_le threshold _ (Forall_removelast _ _ Hpos)).
  simpl length. lia.
Qed.

End more_runs_facts.

(** ** [detect_request_bundle]: further properties *)

Section bundle_extras.
Import Bundle Runs.

Lemma service_finding_id (r : service_key * Z) : service_finding r = r.
Proof. by destruct r as [[f t] n]. Qed.

Lemma endpoint_finding_id (r : endpoint_key * Z) : endpoint_finding r = r.
Proof. by destruct r as [[[f t] e] n]. Qed.

Lemma fmap_service_finding (rs : list (service_key * Z)) :
  service_finding <$> rs = rs.
Proof.
  induction rs as [|r rs IH]; [done|].
  by rewrite fmap_cons, IH, service_finding_id.
Qed.

Lemma fmap_endpoint_finding (rs : list (endpoint_key * Z)) :
  endpoint_finding <$> rs = rs.
Proof.
  induction rs as [|r rs IH]; [done|].
  by rewrite fmap_cons, IH, endpoint_finding_id.
Qed.

(** The service key is a part of the endpoint key. *)
Lemma call_service_endpoint (c : Call) :
  call_service c = ((call_endpoint c).1.1, (call_endpoint c).1.2).
Proof. by destruct c as [[[time f] t] e]. Qed.

Lemma fmap_call_service (p : list Call) :
  call_service <$> p = (λ k : endpoint_key, (k.1.1, k.1.2)) <$> (call_endpoint <$> p).
Proof.
  rewrite <- list_fmap_compose. apply list_fmap_ext.
  intros i c _. apply call_service_endpoint.
Qed.

(** What [detect_request_bundle] returns, for thresholds of 2 or more. *)
Lemma detect_request_bundle_runs (pipeline : list Call)
    (threshold_service threshold_endpoint : Z) :
  2 ≤ threshold_service → 2 ≤ threshold_endpoint →
  detect_request_bundle pipeline threshold_service threshold_endpoint =
  Ok (meeting threshold_service (closed_runs (call_service <$> pipeline)),
      meeting threshold_endpoint (closed_runs (call_endpoint <$> pipeline))).
Proof.
  intros Hs He. rewrite detect_request_bundle_ok by done.
  by rewrite fmap_service_finding, fmap_endpoint_finding.
Qed.

(** A result is only there for an empty pipeline or thresholds of 2 or more. *)
Lemma detect_request_bundle_Ok_inv (pipeline : list Call)
    (threshold_service threshold_endpoint : Z) bs be :
  detect_request_bundle pipeline threshold_service threshold_endpoint = Ok (bs, be) →
  (pipeline = [] ∧ bs = [] ∧ be = []) ∨
  (pipeline ≠ [] ∧ 2 ≤ threshold_service ∧ 2 ≤ threshold_endpoint ∧
   bs = meeting threshold_service (closed_runs (call_service <$> pipeline)) ∧
   be = meeting threshold_endpoint (closed_runs (call_endpoint <$> pipeline))).
Proof.
  destruct pipeline as [|c rest]; [intros [= <- <-]; by left|].
  destruct (decide (2 ≤ threshold_service ∧ 2 ≤ threshold_endpoint))
    as [[Hs He]|Hlow].
  - rewrite detect_request_bundle_runs by done. intros [= <- <-].
    right. done.
  - rewrite detect_request_bundle_raise by lia. done.
Qed.

Lemma Forall_key_replicate {K : Type} (key : Call → K) (k : K) (run : list Call) :
  Forall (λ d, key d = k) run → key <$> run = replicate (length run) k.
Proof.
  induction 1 as [|d run Hd _ IH]; [done|]. by rewrite fmap_cons, Hd, IH.
Qed.

(** X1. [detect_request_bundle] raises exactly when the pipeline is not
    empty and one of the thresholds is 1 or less, and the exception is then
    a [TypeError]; in particular the empty pipeline never raises. *)
Theorem bundle_raises_iff (pipeline : list Call)
    (threshold_service threshold_endpoint : Z) :
  (detect_request_bundle pipeline threshold_service threshold_endpoint
     = Raise TypeError ↔
   pipeline ≠ [] ∧ (threshold_service ≤ 1 ∨ threshold_endpoint ≤ 1)) ∧
  (∀ e, detect_request_bundle pipeline threshold_service threshold_endpoint
          = Raise e → e = TypeError).
Proof.
  destruct pipeline as [|c rest].
  - split; [|done]. split; [done|]. by intros [? _].
  - destruct (decide (2 ≤ threshold_service ∧ 2 ≤ threshold_endpoint))
      as [[Hs He]|Hlow].
    + rewrite detect_request_bundle_runs by done. split; [|done].
      split; [done|]. intros [_ ?]. lia.
    + rewrite detect_request_bundle_raise by lia. split.
      * split; [|done]. intros _. split; [done|lia].
      * by intros e [= <-].
Qed.

(** X2. A run of calls with one key, which the call before it and the call
    after it do not have, is reported with its length when the length meets
    the threshold; this holds at the service level and at the endpoint
    level, for thresholds of 2 or more. *)
Theorem closed_run_is_reported (pre run : list Call) (c : Call) (rest : list Call)
    (threshold_service threshold_endpoint : Z) :
  2 ≤ threshold_service → 2 ≤ threshold_endpoint → run ≠ [] →
  ∃ bs be,
    detect_request_bundle (pre ++ run ++ c :: rest)
      threshold_service threshold_endpoint = Ok (bs, be) ∧
    (∀ f t,
       Forall (λ d, call_service d = (f, t)) run →
       last (call_service <$> pre) ≠ Some (f, t) →
       call_service c ≠ (f, t) →
       threshold_service ≤ Z.of_nat (length run) →
       (f, t, Z.of_nat (length run)) ∈ bs) ∧
    (∀ f t e,
       Forall (λ d, call_endpoint d = (f, t, e)) run →
       last (call_endpoint <$> pre) ≠ Some (f, t, e) →
       call_endpoint c ≠ (f, t, e) →
       threshold_endpoint ≤ Z.of_nat (length run) →
       (f, t, e, Z.of_nat (length run)) ∈ be).
Proof.
  intros Hs He Hrun. rewrite detect_request_bundle_runs by done.
  eexists _, _. split; [done|].
  destruct run as [|d run]; [done|].
  rewrite !fmap_app, !fmap_cons. split.
  - intros f t Hall Hlast Hc Hlen. apply elem_of_meeting. split; [done|].
    rewrite <- fmap_cons, (Forall_key_replicate _ _ _ Hall).
    by apply closed_runs_middle.
  - intros f t e Hall Hlast Hc Hlen. apply elem_of_meeting. split; [done|].
    rewrite <- fmap_cons, (Forall_key_replicate _ _ _ Hall).
    by apply closed_runs_middle.
Qed.

Lemma closed_run_is_reported_witness :
  (2 ≤ 2 ∧ [(1, "A", "B", "/x"); (2, "A", "B", "/x"); (3, "A", "B", "/y")]
           ≠ ([] : list Call)) ∧
  ∃ bs be,
    detect_request_bundle mixed_calls 2 2 = Ok (bs, be) ∧
    ("A", "B", 3) ∈ bs.
Proof.
  assert ([(1, "A", "B", "/x"); (2, "A", "B", "/x"); (3, "A", "B", "/y")]
            ≠ ([] : list Call)) as Hne by done.
  split; [split; [lia|done]|].
  destruct (closed_run_is_reported []
              [(1, "A", "B", "/x"); (2, "A", "B", "/x"); (3, "A", "B", "/y")]
              (4, "C", "D", "/z") [(5, "C", "D", "/z")] 2 2)
    as (bs & be & E & Hbs & _); [lia|lia|done|].
  exists bs, be. split; [exact E|].
  apply (Hbs "A" "B"); [by repeat constructor|done|done|simpl; lia].
Defined.

(** X3. Every reported bundle has a count of at least 2 that meets the
    threshold, and the pipeline has that many calls with the key of the
    bundle in a row. *)
Theorem findings_are_runs (pipeline : list Call)
    (threshold_service threshold_endpoint : Z) bs be :
  detect_request_bundle pipeline threshold_service threshold_endpoint = Ok (bs, be) →
  (∀ f t n, (f, t, n) ∈ bs →
     2 ≤ n ∧ threshold_service ≤ n ∧
     ∃ l1 l2, call_service <$> pipeline
              = l1 ++ replicate (Z.to_nat n) (f, t) ++ l2) ∧
  (∀ f t e n, (f, t, e, n) ∈ be →
     2 ≤ n ∧ threshold_endpoint ≤ n ∧
     ∃ l1 l2, call_endpoint <$> pipeline
              = l1 ++ replicate (Z.to_nat n) (f, t, e) ++ l2).
Proof.
  intros [(-> & -> & ->)|(Hne & Hs & He & -> & ->)]%detect_request_bundle_Ok_inv.
  - split; intros; by apply elem_of_nil in H.
  - split.
    + intros f t n [Hn Hin%elem_of_removelast]%elem_of_meeting. simpl in Hn.
      split_and!; [lia|done|].
      destruct (elem_of_expand _ _ _ Hin) as (l1 & l2 & E).
      exists l1, l2. by rewrite <- E, expand_runs.
    + intros f t e n [Hn Hin%elem_of_removelast]%elem_of_meeting. simpl in Hn.
      split_and!; [lia|done|].
      destruct (elem_of_expand _ _ _ Hin) as (l1 & l2 & E).
      exists l1, l2. by rewrite <- E, expand_runs.
Qed.

Lemma findings_are_runs_witness :
  detect_request_bundle mixed_calls 2 2
    = Ok ([("A", "B", 3)], [("A", "B", "/x", 2)]) ∧
  ∃ l1 l2, call_service <$> mixed_calls
           = l1 ++ replicate (Z.to_nat 3) ("A", "B") ++ l2.
Proof.
  assert (detect_request_bundle mixed_calls 2 2
            = Ok ([("A", "B", 3)], [("A", "B", "/x", 2)])) as E by reflexivity.
  split; [exact E|].
  destruct (findings_are_runs _ _ _ _ _ E) as [Hbs _].
  destruct (Hbs "A" "B" 3) as (_ & _ & H); [by left|exact H].
Defined.

(** X4. A call appended to the pipeline whose service key differs from that
    of the last call closes the trailing run: then every run of the pipeline
    that meets the threshold is reported. *)
Theorem sentinel_call_flushes (pipeline : list Call) (c : Call)
    (threshold_service threshold_endpoint : Z) :
  2 ≤ threshold_service → 2 ≤ threshold_endpoint →
  (∀ d, last pipeline = Some d → call_service d ≠ call_service c) →
  detect_request_bundle (pipeline ++ [c]) threshold_service threshold_endpoint =
  Ok (meeting threshold_service (runs (call_service <$> pipeline)),
      meeting threshold_endpoint (runs (call_endpoint <$> pipeline))).
Proof.
  intros Hs He Hlast. rewrite detect_request_bundle_runs by done.
  rewrite !fmap_app. simpl. rewrite !closed_runs_snoc; [done|..].
  - rewrite fmap_last. destruct (last pipeline) as [d|]; [|done].
    simpl. intros [= E]. apply (Hlast d); [done|].
    by rewrite !call_service_endpoint, E.
  - rewrite fmap_last. destruct (last pipeline) as [d|]; [|done].
    simpl. intros [= E]. by apply (Hlast d).
Qed.

Lemma sentinel_call_flushes_witness :
  (∀ d, last three_calls = Some d →
        call_service d ≠ call_service (4, "", "", "")) ∧
  detect_request_bundle three_calls 2 2 = Ok ([], []) ∧
  detect_request_bundle (three_calls ++ [(4, "", "", "")]) 2 2
    = Ok ([("A", "B", 3)], [("A", "B", "/x", 3)]).
Proof.
  assert (∀ d, last three_calls = Some d →
               call_service d ≠ call_service (4, "", "", "")) as H.
  { intros d [= <-]. done. }
  split; [exact H|]. split; [reflexivity|].
  pose proof (sentinel_call_flushes three_calls (4, "", "", "") 2 2
                ltac:(lia) ltac:(lia) H) as E.
  etrans; [exact E|reflexivity].
Defined.

(** X5. Raising the thresholds only drops bundles: the lists for the higher
    thresholds are the lists for the lower ones without the bundles whose
    count is below the higher threshold. *)
Theorem raising_threshold_filters (pipeline : list Call)
    (threshold_service threshold_endpoint threshold_service'
     threshold_endpoint' : Z) bs be :
  threshold_service ≤ threshold_service' →
  threshold_endpoint ≤ threshold_endpoint' →
  detect_request_bundle pipeline threshold_service threshold_endpoint = Ok (bs, be) →
  detect_request_bundle pipeline threshold_service' threshold_endpoint' =
  Ok (filter (λ b : service_bundle, threshold_service' ≤ b.2) bs,
      filter (λ b : endpoint_bundle, threshold_endpoint' ≤ b.2) be).
Proof.
  intros Hs He
    [(-> & -> & ->)|(Hne & Hs2 & He2 & -> & ->)]%detect_request_bundle_Ok_inv.
  - done.
  - rewrite detect_request_bundle_runs by lia. unfold meeting.
    rewrite !list_filter_filter_l; [done|..]; simpl; intros; lia.
Qed.

Lemma raising_threshold_filters_witness :
  (2 ≤ 3 ∧ detect_request_bundle mixed_calls 2 2
             = Ok ([("A", "B", 3)], [("A", "B", "/x", 2)])) ∧
  detect_request_bundle mixed_calls 3 3 = Ok ([("A", "B", 3)], []).
Proof.
  assert (detect_request_bundle mixed_calls 2 2
            = Ok ([("A", "B", 3)], [("A", "B", "/x", 2)])) as E by reflexivity.
  split; [split; [lia|exact E]|].
  rewrite (raising_threshold_filters mixed_calls 2 2 3 3 _ _ ltac:(lia) ltac:(lia) E).
  reflexivity.
Defined.

(** X6. The reported bundles do not overlap and leave out the trailing run:
    at each level the counts add up to less than the number of calls, and
    there are at most that number divided by the threshold of them. *)
Theorem findings_bound (pipeline : list Call)
    (threshold_service threshold_endpoint : Z) bs be :
  detect_request_bundle pipeline threshold_service threshold_endpoint = Ok (bs, be) →
  pipeline ≠ [] →
  (threshold_service * Z.of_nat (length bs) ≤ total bs ∧
   total bs < Z.of_nat (length pipeline)) ∧
  (threshold_endpoint * Z.of_nat (length be) ≤ total be ∧
   total be < Z.of_nat (length pipeline)).
Proof.
  intros [(-> & -> & ->)|(_ & Hs & He & -> & ->)]%detect_request_bundle_Ok_inv
    Hne; [done|].
  split; (split; [apply length_meeting_le|]).
  - rewrite <- (length_fmap call_service pipeline).
    apply meeting_closed_runs_bound. by destruct pipeline.
  - rewrite <- (length_fmap call_endpoint pipeline).
    apply meeting_closed_runs_bound. by destruct pipeline.
Qed.

Lemma findings_bound_witness :
  (detect_request_bundle mixed_calls 2 2
     = Ok ([("A", "B", 3)], [("A", "B", "/x", 2)]) ∧
   mixed_calls ≠ []) ∧
  total [("A", "B", 3)] < Z.of_nat (length mixed_calls).
Proof.
  assert (detect_request_bundle mixed_calls 2 2
            = Ok ([("A", "B", 3)], [("A", "B", "/x", 2)])) as E by reflexivity.
  assert (mixed_calls ≠ []) as Hne by done.
  split; [done|].
  destruct (findings_bound _ _ _ _ _ E Hne) as [[_ H] _]. exact H.
Defined.

(** X7. The result depends on the keys of the calls only: two pipelines
    whose calls have the same senders, receivers and endpoints in the same
    order give the same result, whatever the timestamps are. *)
Theorem result_depends_on_keys_only (pipeline pipeline' : list Call)
    (threshold_service threshold_endpoint : Z) :
  call_endpoint <$> pipeline = call_endpoint <$> pipeline' →
  detect_request_bundle pipeline threshold_service threshold_endpoint =
  detect_request_bundle pipeline' threshold_service threshold_endpoint.
Proof.
  intros E.
  destruct (decide (2 ≤ threshold_service ∧ 2 ≤ threshold_endpoint))
    as [[Hs He]|Hlow].
  - rewrite !detect_request_bundle_runs by done.
    by rewrite (fmap_call_service pipeline), (fmap_call_service pipeline'), E.
  - destruct pipeline as [|c rest], pipeline' as [|c' rest']; try done.
    by rewrite !detect_request_bundle_raise by lia.
Qed.

Lemma result_depends_on_keys_only_witness :
  call_endpoint <$> three_calls
    = call_endpoint <$> [(30, "A", "B", "/x"); (20, "A", "B", "/x");
                         (10, "A", "B", "/x")] ∧
  detect_request_bundle three_calls 2 2 =
  detect_request_bundle [(30, "A", "B", "/x"); (20, "A", "B", "/x");
                         (10, "A", "B", "/x")] 2 2.
Proof.
  assert (call_endpoint <$> three_calls
            = call_endpoint <$> [(30, "A", "B", "/x"); (20, "A", "B", "/x");
                                 (10, "A", "B", "/x")]) as E by reflexivity.
  split; [exact E|].
  exact (result_depends_on_keys_only _ _ 2 2 E).
Defined.

End bundle_extras.

(** ** The derived graph and the calls of the multigraph *)

Section calls_facts.
Import Graph.

Lemma edges_foldl_add_node (l : list string) (D : DiGraph) :
  edges (foldl add_node D l) = edges D.
Proof.
  revert D. induction l as [|n l IH]; intros D; simpl; [done|].
  by rewrite IH, edges_add_node.
Qed.

Lemma edges_add_edge (D : DiGraph) (e : string * string * string) (u v : string) :
  (u, v) ∈ edges (add_edge D e) ↔ (u, v) ∈ edges D ∨ (u, v) = (e.1.1, e.1.2).
Proof.
  destruct e as [[a b] k]. simpl.
  rewrite elem_of_union, elem_of_singleton, !edges_add_node. tauto.
Qed.

Lemma edges_foldl_add_edge (es : list (string * string * string)) (D : DiGraph)
    (u v : string) :
  (u, v) ∈ edges (foldl add_edge D es) ↔
  (u, v) ∈ edges D ∨ ∃ key, (u, v, key) ∈ es.
Proof.
  revert D. induction es as [|e es IH]; intros D; simpl.
  - split; [by left|]. intros [?|[k ?%elem_of_nil]]; done.
  - rewrite IH, edges_add_edge. destruct e as [[a b] k]. simpl. split.
    + intros [[?|[= -> ->]]|[k' ?]]; [by left|right..].
      * exists k. by left.
      * exists k'. by right.
    + intros [?|[k' [[= -> -> ->]|?]%elem_of_cons]];
        [by left; left|by left; right|right; by exists k'].
Qed.

(** The edges of [nx.DiGraph(G)] are the calls of [G]. *)
Lemma edges_nx_DiGraph (G : MultiDiGraph) (u v : string) :
  (u, v) ∈ edges (nx_DiGraph G) ↔ calls G u v.
Proof.
  unfold nx_DiGraph. rewrite edges_foldl_add_edge, edges_foldl_add_node.
  unfold calls. simpl. split; [|by right]. intros [?%elem_of_empty|?]; done.
Qed.

Lemma succ_calls (G : MultiDiGraph) (u v : string) :
  v ∈ succ (nx_DiGraph G) u ↔ calls G u v.
Proof. by rewrite elem_of_succ, edges_nx_DiGraph. Qed.

Lemma pred_calls (G : MultiDiGraph) (u v : string) :
  u ∈ pred (nx_DiGraph G) v ↔ calls G u v.
Proof. by rewrite elem_of_pred, edges_nx_DiGraph. Qed.

Lemma calls_nodes (G : MultiDiGraph) (u v : string) :
  calls G u v → u ∈ nodes (nx_DiGraph G) ∧ v ∈ nodes (nx_DiGraph G).
Proof.
  intros H%edges_nx_DiGraph. by apply (wf_nx_DiGraph G).
Qed.

Lemma size_pos_elem (X : gset string) : (0 < size X)%nat ↔ ∃ x, x ∈ X.
Proof.
  split.
  - intros Hpos. apply set_choose_L. intros ->. rewrite size_empty in Hpos. lia.
  - intros [x Hx]. destruct (decide (size X = 0%nat)) as [Hz|]; [|lia].
    apply size_empty_inv in Hz. set_solver.
Qed.

Lemma out_degree_pos_calls (G : MultiDiGraph) (n : string) :
  (0 < out_degree (nx_DiGraph G) n)%nat ↔ ∃ v, calls G n v.
Proof.
  unfold out_degree. rewrite size_pos_elem.
  split; intros [v Hv]; exists v; by apply succ_calls.
Qed.

Lemma in_degree_pos_calls (G : MultiDiGraph) (n : string) :
  (0 < in_degree (nx_DiGraph G) n)%nat ↔ ∃ u, calls G u n.
Proof.
  unfold in_degree. rewrite size_pos_elem.
  split; intros [v Hv]; exists v; by apply pred_calls.
Qed.

Lemma pred_singleton_calls (G : MultiDiGraph) (p n : string) :
  pred (nx_DiGraph G) n = {[ p ]} ↔ sole_caller G p n.
Proof.
  unfold sole_caller. split.
  - intros E. split.
    + apply pred_calls. rewrite E. set_solver.
    + intros u Hu%pred_calls. rewrite E in Hu. set_solver.
  - intros [Hp Hall]. apply set_eq. intros u.
    rewrite elem_of_singleton, pred_calls. split; [apply Hall|by intros ->].
Qed.

Lemma size_pred_one_calls (G : MultiDiGraph) (n : string) :
  size (pred (nx_DiGraph G) n) = 1%nat ↔ ∃ p, sole_caller G p n.
Proof.
  split.
  - intros (p & E & _)%size_one_elements. exists p. by apply pred_singleton_calls.
  - intros [p E%pred_singleton_calls]. by rewrite E, size_singleton.
Qed.

(** [p] calls [n] and nothing else, or [p] calls [n] and something else. *)
Lemma succ_one_calls (G : MultiDiGraph) (p n : string) :
  calls G p n →
  (size (succ (nx_DiGraph G) p) = 1%nat ↔ ∀ w, calls G p w → w = n).
Proof.
  intros Hpn%succ_calls. split.
  - intros (x & E & _)%size_one_elements w Hw%succ_calls.
    rewrite E in Hpn, Hw. set_solver.
  - intros Hall. assert (succ (nx_DiGraph G) p = {[ n ]}) as ->.
    { apply set_eq. intros w. rewrite elem_of_singleton. split.
      - intros Hw%succ_calls. by apply Hall.
      - by intros ->. }
    apply size_singleton.
Qed.

End calls_facts.

(** ** The two graph detectors in terms of calls *)

Section detectors_by_calls.
Import Graph.

Lemma prod_ext {A B : Type} (p q : A * B) : p.1 = q.1 → p.2 = q.2 → p = q.
Proof. destruct p, q. simpl. by intros -> ->. Qed.

Lemma in_degree_zero_calls (G : MultiDiGraph) (n : string) :
  in_degree (nx_DiGraph G) n = 0%nat ↔ ∀ u, ¬ calls G u n.
Proof.
  pose proof (in_degree_pos_calls G n) as H. split.
  - intros Hz u Hu. assert (0 < in_degree (nx_DiGraph G) n)%nat; [|lia].
    apply H. by exists u.
  - intros Hno. destruct (decide (in_degree (nx_DiGraph G) n = 0%nat));
      [done|]. destruct H as [H _]. destruct H as [u Hu]; [lia|].
    by destruct (Hno u).
Qed.

(** What line 165 tests, in terms of calls. *)
Lemma zero_degree_calls (G : MultiDiGraph) (n : string) :
  out_degree (nx_DiGraph G) n = 0%nat ↔ ∀ w, ¬ calls G n w.
Proof.
  pose proof (out_degree_pos_calls G n) as H. split.
  - intros Hz w Hw. assert (0 < out_degree (nx_DiGraph G) n)%nat; [|lia].
    apply H. by exists w.
  - intros Hno. destruct (decide (out_degree (nx_DiGraph G) n = 0%nat));
      [done|]. destruct H as [H _]. destruct H as [w Hw]; [lia|].
    by destruct (Hno w).
Qed.

Lemma frontend_candidates_calls (G : MultiDiGraph)
    (frontend_services : option (gset string)) (n : string) :
  n ∈ (Frontend.detect_frontend_integration G frontend_services).1 ↔
  (∃ v, calls G n v) ∧ ∀ u, ¬ calls G u n.
Proof.
  rewrite elem_of_frontend_candidates, out_degree_pos_calls, in_degree_zero_calls.
  split; [by intros (_ & ? & ?)|].
  intros [[v' Hv'] Hno]. split_and!; [|done|by exists v'].
  by destruct (calls_nodes _ _ _ Hv').
Qed.

Lemma frontend_violators_calls (G : MultiDiGraph)
    (frontend_services : option (gset string)) (n : string) :
  n ∈ (Frontend.detect_frontend_integration G frontend_services).2 ↔
  n ∈ default ∅ frontend_services ∧ ∃ u, calls G u n.
Proof.
  rewrite elem_of_frontend_violators. split.
  - intros (_ & Hnz & Hfs). split; [done|]. apply in_degree_pos_calls. lia.
  - intros [Hfs [u Hu]]. split_and!; [| |done].
    + by destruct (calls_nodes _ _ _ Hu).
    + rewrite in_degree_zero_calls. intros Hno. by apply (Hno u).
Qed.

(** The conditions under which a pair is found, and under which a declared
    database service stays without a holder. *)
Lemma ihr_results_calls (G : MultiDiGraph) (database_services : option (gset string))
    (c v : gset (string * string)) (cv no : gset string) :
  IHR.detect_information_holder_resource G database_services = (c, v, cv, no) →
  let db := default ∅ database_services in
  (∀ p n, (p, n) ∈ c ↔
     sole_caller G p n ∧ (∀ w, calls G p w → w = n) ∧
     ((∀ w, ¬ calls G n w) ∨ n ∈ db)) ∧
  (∀ p n, (p, n) ∈ v ↔
     sole_caller G p n ∧ (∃ w, calls G p w ∧ w ≠ n) ∧
     ((∀ w, ¬ calls G n w) ∨ n ∈ db)) ∧
  (∀ n, n ∈ cv ↔ n ∈ db ∧ ∃ w, calls G n w) ∧
  (∀ n, n ∈ no ↔ n ∈ db ∧ ¬ ∃ p, sole_caller G p n).
Proof.
  intros E db. destruct (elem_of_ihr_results _ _ _ _ _ _ E) as (Hc & Hv & Hcv & Hno).
  fold db in Hc, Hv, Hcv, Hno. split_and!.
  - intros p n. rewrite Hc, zero_degree_calls, pred_singleton_calls. split.
    + intros (_ & Hz & Hsole & Hs). split_and!; [done| |done].
      by apply (succ_one_calls G p n (proj1 Hsole)).
    + intros (Hsole & Hall & Hz). split_and!; [|done|done|].
      * by destruct (calls_nodes _ _ _ (proj1 Hsole)).
      * by apply (succ_one_calls G p n (proj1 Hsole)).
  - intros p n. rewrite Hv, zero_degree_calls, pred_singleton_calls. split.
    + intros (_ & Hz & Hsole & Hs). split_and!; [done| |done].
      destruct (decide (∀ w, w ∈ succ (nx_DiGraph G) p → w = n))
        as [Hall|Hex].
      * destruct Hs. apply (succ_one_calls G p n (proj1 Hsole)).
        intros w Hw%succ_calls. by apply Hall.
      * apply not_set_Forall_Exists in Hex as (w & Hw & Hne); [|apply _].
        exists w. split; [by apply succ_calls|done].
    + intros (Hsole & (w & Hw & Hne) & Hz). split_and!; [|done|done|].
      * by destruct (calls_nodes _ _ _ (proj1 Hsole)).
      * intros Hs. apply Hne.
        exact (proj1 (succ_one_calls G p n (proj1 Hsole)) Hs w Hw).
  - intros n. rewrite Hcv. split.
    + intros (_ & Hnz & Hdb). split; [done|]. apply out_degree_pos_calls. lia.
    + intros [Hdb [w Hw]]. split_and!; [| |done].
      * by destruct (calls_nodes _ _ _ Hw).
      * rewrite zero_degree_calls. intros Hno'. by apply (Hno' w).
  - intros n. rewrite Hno. unfold IHR.inspected. rewrite size_pred_one_calls.
    split.
    + intros [Hdb Hnot]. split; [done|]. intros [p Hp]. apply Hnot.
      split_and!; [|by right|by exists p].
      by destruct (calls_nodes _ _ _ (proj1 Hp)).
    + intros [Hdb Hnot]. split; [done|]. intros (_ & _ & ?). done.
Qed.

End detectors_by_calls.

(** ** The two graph detectors: further properties *)

Section graph_extras.
Import Graph.

(** X8. [detect_frontend_integration] in terms of the calls of the
    multigraph: the candidates are the services that call some service and
    are called by none, the violators are the declared frontend services
    that some service calls. *)
Theorem frontend_sets_by_calls (G : MultiDiGraph)
    (frontend_services : option (gset string)) (n : string) :
  let '(frontend_candidates, frontend_violators) :=
    Frontend.detect_frontend_integration G frontend_services in
  (n ∈ frontend_candidates ↔ (∃ v, calls G n v) ∧ ∀ u, ¬ calls G u n) ∧
  (n ∈ frontend_violators ↔
     n ∈ default ∅ frontend_services ∧ ∃ u, calls G u n).
Proof.
  pose proof (frontend_candidates_calls G frontend_services n) as Hc.
  pose proof (frontend_violators_calls G frontend_services n) as Hv.
  by destruct (Frontend.detect_frontend_integration G frontend_services).
Qed.

(** X9. The pairs of [detect_information_holder_resource] in terms of the
    calls of the multigraph. [(p, n)] is found when [p] is the only caller
    of [n] and [n] calls nothing or is a declared database service; it is a
    candidate when [p] calls nothing but [n], a violator when [p] calls
    something else too. *)
Theorem ihr_pairs_by_calls (G : MultiDiGraph)
    (database_services : option (gset string)) (p n : string) :
  let '(ihr_candidates, ihr_violators, _, _) :=
    IHR.detect_information_holder_resource G database_services in
  ((p, n) ∈ ihr_candidates ↔
     sole_caller G p n ∧ (∀ w, calls G p w → w = n) ∧
     ((∀ w, ¬ calls G n w) ∨ n ∈ default ∅ database_services)) ∧
  ((p, n) ∈ ihr_violators ↔
     sole_caller G p n ∧ (∃ w, calls G p w ∧ w ≠ n) ∧
     ((∀ w, ¬ calls G n w) ∨ n ∈ default ∅ database_services)).
Proof.
  destruct (IHR.detect_information_holder_resource G database_services)
    as [[[c v] cv] no] eqn:E.
  destruct (ihr_results_calls _ _ _ _ _ _ E) as (Hc & Hv & _ & _).
  split; [apply Hc|apply Hv].
Qed.

(** X10. The two sets of declared database services in terms of the calls of
    the multigraph: a declared database service is a call violator exactly
    when it calls some service (itself included), and it is left in
    [database_no_ihr_violators] exactly when it does not have one single
    caller; names that are not declared are in neither set. *)
Theorem ihr_database_sets_by_calls (G : MultiDiGraph)
    (database_services : option (gset string)) (n : string) :
  let '(_, _, database_call_violators, database_no_ihr_violators) :=
    IHR.detect_information_holder_resource G database_services in
  (n ∈ database_call_violators ↔
     n ∈ default ∅ database_services ∧ ∃ w, calls G n w) ∧
  (n ∈ database_no_ihr_violators ↔
     n ∈ default ∅ database_services ∧ ¬ ∃ p, sole_caller G p n).
Proof.
  destruct (IHR.detect_information_holder_resource G database_services)
    as [[[c v] cv] no] eqn:E.
  destruct (ihr_results_calls _ _ _ _ _ _ E) as (_ & _ & Hcv & Hno).
  split; [apply Hcv|apply Hno].
Qed.

(** X11. Only who calls whom matters: two multigraphs with the same calls
    give the same results, whatever the number of edge instances between two
    services, their keys, the order of nodes and edges, and the services
    that take part in no call. *)
Theorem results_depend_on_calls_only (G G' : MultiDiGraph)
    (frontend_services database_services : option (gset string)) :
  (∀ u v, calls G u v ↔ calls G' u v) →
  Frontend.detect_frontend_integration G frontend_services =
  Frontend.detect_frontend_integration G' frontend_services ∧
  IHR.detect_information_holder_resource G database_services =
  IHR.detect_information_holder_resource G' database_services.
Proof.
  intros Hcalls.
  assert (∀ p n, sole_caller G p n ↔ sole_caller G' p n) as Hsole.
  { intros p n. unfold sole_caller. by setoid_rewrite Hcalls. }
  split.
  - apply prod_ext; apply set_eq; intros n.
    + rewrite !frontend_candidates_calls. by setoid_rewrite Hcalls.
    + rewrite !frontend_violators_calls. by setoid_rewrite Hcalls.
  - destruct (IHR.detect_information_holder_resource G database_services)
      as [[[c v] cv] no] eqn:E.
    destruct (IHR.detect_information_holder_resource G' database_services)
      as [[[c' v'] cv'] no'] eqn:E'.
    destruct (ihr_results_calls _ _ _ _ _ _ E) as (Hc & Hv & Hcv & Hno).
    destruct (ihr_results_calls _ _ _ _ _ _ E') as (Hc' & Hv' & Hcv' & Hno').
    repeat f_equal; apply set_eq.
    + intros [p n]. rewrite Hc, Hc', Hsole. by setoid_rewrite Hcalls.
    + intros [p n]. rewrite Hv, Hv', Hsole. by setoid_rewrite Hcalls.
    + intros n. rewrite Hcv, Hcv'. by setoid_rewrite Hcalls.
    + intros n. rewrite Hno, Hno'. by setoid_rewrite Hsole.
Qed.

Lemma results_depend_on_calls_only_witness :
  (∀ u v, calls G1 u v ↔ calls G1' u v) ∧
  Frontend.detect_frontend_integration G1 (Some {[ "P" ]}) =
  Frontend.detect_frontend_integration G1' (Some {[ "P" ]}).
Proof.
  assert (∀ u v, calls G1 u v ↔ calls G1' u v) as H.
  { intros u v. unfold calls, G1, G1'. simpl. split; intros [k Hk].
    - rewrite !elem_of_cons, elem_of_nil in Hk.
      destruct Hk as [[= -> -> ->]|[[= -> -> ->]|[[= -> -> ->]|[[= -> -> ->]|[]]]]];
        exists "0"; rewrite !elem_of_cons; auto.
    - rewrite !elem_of_cons, elem_of_nil in Hk.
      destruct Hk as [[= -> -> ->]|[[= -> -> ->]|[[= -> -> ->]|[]]]].
      + exists "d". rewrite !elem_of_cons. auto.
      + exists "c". rewrite !elem_of_cons. auto.
      + exists "a". rewrite !elem_of_cons. auto. }
  split; [exact H|].
  exact (proj1 (results_depend_on_calls_only G1 G1' (Some {[ "P" ]}) None H)).
Defined.

(** X12. The pairs and the flagged databases fit together: no pair is both
    a candidate and a violator, a service is the second component of at most
    one pair, and a declared database service is left in
    [database_no_ihr_violators] exactly when it is the second component of
    no pair. *)
Theorem ihr_pairs_consistent (G : MultiDiGraph)
    (database_services : option (gset string)) :
  let '(ihr_candidates, ihr_violators, _, database_no_ihr_violators) :=
    IHR.detect_information_holder_resource G database_services in
  ihr_candidates ## ihr_violators ∧
  (∀ p q n, (p, n) ∈ ihr_candidates ∪ ihr_violators →
            (q, n) ∈ ihr_candidates ∪ ihr_violators → p = q) ∧
  (∀ n, n ∈ database_no_ihr_violators ↔
        n ∈ default ∅ database_services ∧
        ∀ p, (p, n) ∉ ihr_candidates ∪ ihr_violators).
Proof.
  destruct (IHR.detect_information_holder_resource G database_services)
    as [[[c v] cv] no] eqn:E.
  destruct (elem_of_ihr_results _ _ _ _ _ _ E) as (Hc & Hv & _ & Hno).
  split_and!.
  - intros [p n]. rewrite Hc, Hv. intros (_ & _ & _ & ?) (_ & _ & _ & ?). done.
  - intros p q n. rewrite !elem_of_union, !Hc, !Hv.
    intros [(_ & _ & Hp & _)|(_ & _ & Hp & _)]
           [(_ & _ & Hq & _)|(_ & _ & Hq & _)];
      rewrite Hp in Hq; by apply singleton_inj in Hq.
  - intros n. rewrite Hno. unfold IHR.inspected. split.
    + intros [Hdb Hnot]. split; [done|]. intros p.
      rewrite elem_of_union, Hc, Hv.
      intros [(? & ? & Hp & _)|(? & ? & Hp & _)]; apply Hnot;
        split_and!; try done; by rewrite Hp, size_singleton.
    + intros [Hdb Hnone]. split; [done|].
      intros (Hnode & Hdeg & (p & Hp & _)%size_one_elements).
      apply (Hnone p). rewrite elem_of_union, Hc, Hv.
      destruct (decide (size (succ (nx_DiGraph G) p) = 1%nat));
        [left|right]; done.
Qed.

(** X13. A graph without calls, the graph without nodes included: no
    frontend candidate and no frontend violator, no pair and no call
    violator, and every declared database service is left in
    [database_no_ihr_violators]. *)
Theorem graph_without_calls (services : list string)
    (frontend_services database_services : option (gset string)) :
  let G := {| mg_nodes := services; mg_edges := [] |} in
  Frontend.detect_frontend_integration G frontend_services = (∅, ∅) ∧
  IHR.detect_information_holder_resource G database_services =
  (∅, ∅, ∅, default ∅ database_services).
Proof.
  intros G.
  assert (∀ u v, ¬ calls G u v) as Hno.
  { intros u v [k Hk]. simpl in Hk. by apply elem_of_nil in Hk. }
  split.
  - apply prod_ext; apply set_eq; intros n.
    + rewrite frontend_candidates_calls.
      split; [intros [[v Hv] _]; by destruct (Hno n v)|].
      by intros ?%elem_of_empty.
    + rewrite frontend_violators_calls.
      split; [intros [_ [u Hu]]; by destruct (Hno u n)|].
      by intros ?%elem_of_empty.
  - destruct (IHR.detect_information_holder_resource G database_services)
      as [[[c v] cv] no] eqn:E.
    destruct (ihr_results_calls _ _ _ _ _ _ E) as (Hc & Hv & Hcv & Hno').
    repeat f_equal; apply set_eq.
    + intros [p n]. rewrite Hc.
      split; [intros [[Hp _] _]; by destruct (Hno p n)|].
      by intros ?%elem_of_empty.
    + intros [p n]. rewrite Hv.
      split; [intros [[Hp _] _]; by destruct (Hno p n)|].
      by intros ?%elem_of_empty.
    + intros n. rewrite Hcv.
      split; [intros [_ [w Hw]]; by destruct (Hno n w)|].
      by intros ?%elem_of_empty.
    + intros n. rewrite Hno'. split; [by intros [? _]|].
      intros Hdb. split; [done|]. intros [p [Hp _]]. by destruct (Hno p n).
Qed.

End graph_extras.

(** ** The store: the results are new objects *)

Section store_extras.
Import Graph Store.

(** X14. The collections a detector returns are objects of their own: their
    references are different from each other and from every reference that
    was in use before the call, so none of them is an argument of the call;
    in particular [database_no_ihr_violators] is not the set passed as
    [database_services]. *)
Theorem results_are_new_objects (h : heap) :
  (∀ pipeline calls threshold_service threshold_endpoint lbs lbe h',
     h !! pipeline = Some (PyPipeline calls) →
     Store.detect_request_bundle pipeline threshold_service threshold_endpoint h
       = (Ok (lbs, lbe), h') →
     lbs ≠ lbe ∧ (lbs ∉ dom h) ∧ (lbe ∉ dom h)) ∧
  (∀ G g arg frontend_services lc lv h',
     h !! G = Some (PyMultiDiGraph g) →
     names_arg h arg frontend_services →
     Store.detect_frontend_integration G arg h = (Ok (lc, lv), h') →
     lc ≠ lv ∧ (lc ∉ dom h) ∧ (lv ∉ dom h)) ∧
  (∀ G g arg database_services lc lv lcv lno h',
     h !! G = Some (PyMultiDiGraph g) →
     names_arg h arg database_services →
     Store.detect_information_holder_resource G arg h
       = (Ok (lc, lv, lcv, lno), h') →
     NoDup [lc; lv; lcv; lno] ∧
     (∀ l, l ∈ [lc; lv; lcv; lno] → l ∉ dom h) ∧
     arg ≠ Some lno).
Proof.
  split_and!.
  - intros pipeline calls ts te lbs lbe h' Hp Hrun.
    destruct (detect_request_bundle_store h pipeline calls ts te Hp)
      as (r & h'' & Hrun' & _ & Hres).
    rewrite Hrun in Hrun'. injection Hrun' as <- <-.
    destruct (Bundle.detect_request_bundle calls ts te) as [[bs be]|e];
      [|done].
    destruct Hres as (lbs' & lbe' & [= <- <-] & ? & ? & ? & _). done.
  - intros G g arg fs lc lv h' HG Harg Hrun.
    destruct (detect_frontend_integration_store h G g arg fs HG Harg)
      as (lc' & lv' & h'' & Hrun' & ? & ? & ? & _).
    rewrite Hrun in Hrun'. injection Hrun' as <- <- <-. done.
  - intros G g arg dbs lc lv lcv lno h' HG Harg Hrun.
    destruct (detect_information_holder_resource_store h G g arg dbs HG Harg)
      as (lc' & lv' & lcv' & lno' & h'' & Hrun' & Hnd & Hnew & _).
    rewrite Hrun in Hrun'. injection Hrun' as <- <- <- <- <-.
    split_and!; [done|done|]. intros ->.
    destruct dbs as [s|]; [|done]. simpl in Harg.
    apply (Hnew lno); [set_solver|]. by apply elem_of_dom.
Qed.

Lemma results_are_new_objects_witness :
  (h1 !! 1%positive = Some (PyMultiDiGraph G1) ∧
   names_arg h1 (Some 2%positive) (Some {[ "S"; "Z" ]}) ∧
   Store.detect_information_holder_resource 1%positive (Some 2%positive) h1
     = (Ok (5, 6, 7, 8)%positive,
        (Store.detect_information_holder_resource 1%positive (Some 2%positive) h1).2)) ∧
  (8%positive ∉ dom h1) ∧ Some 2%positive ≠ Some 8%positive.
Proof.
  assert (h1 !! 1%positive = Some (PyMultiDiGraph G1)) as H1 by reflexivity.
  assert (names_arg h1 (Some 2%positive) (Some {[ "S"; "Z" ]})) as H2
    by reflexivity.
  assert (Store.detect_information_holder_resource 1%positive (Some 2%positive) h1
     = (Ok (5, 6, 7, 8)%positive,
        (Store.detect_information_holder_resource 1%positive (Some 2%positive) h1).2)) as E
    by (vm_compute; reflexivity).
  split; [split_and!; assumption|].
  destruct (results_are_new_objects h1) as (_ & _ & Hi).
  destruct (Hi _ _ _ _ _ _ _ _ _ H1 H2 E) as (_ & Hnew & Harg).
  split; [|exact Harg]. apply Hnew.
  by repeat constructor.
Defined.

End store_extras.

(** ** The notifications: what the three detectors write *)

Section notify_facts.
Import Graph Notify NotifyLines.

Lemma interleaves_nil {A : Type} : interleaves ([] : list A) [] [].
Proof. by split_and!. Qed.

Lemma interleaves_app {A : Type} (o1 o2 x1 x2 y1 y2 : list A) :
  interleaves o1 x1 y1 → interleaves o2 x2 y2 →
  interleaves (o1 ++ o2) (x1 ++ x2) (y1 ++ y2).
Proof.
  intros (Hp1 & Hx1 & Hy1) (Hp2 & Hx2 & Hy2). split_and!.
  - rewrite Hp1, Hp2. solve_Permutation.
  - by apply sublist_app.
  - by apply sublist_app.
Qed.

Lemma interleaves_seq {A : Type} (xs ys : list A) : interleaves (xs ++ ys) xs ys.
Proof.
  split_and!; [done|by apply sublist_inserts_r|by apply sublist_inserts_l].
Qed.

(** A loop whose body cannot raise. *)
Lemma for_fold_ok {S A : Type} (body : S → A → Out S) (g : S → A → S)
    (lines : A → list string) (items : list A) (st : S) :
  (∀ st x, body st x = (Ok (g st x), lines x)) →
  for_fold body st items = (Ok (foldl g st items), items ≫= lines).
Proof.
  intros Hbody. revert st. induction items as [|x items IH]; intros st; [done|].
  cbn [for_fold foldl]. unfold mbind at 1, Out_bind. rewrite Hbody, IH.
  by rewrite bind_cons.
Qed.

End notify_facts.

(** ** The notifications of [detect_request_bundle] *)

Section bundle_notify.
Import Bundle Runs Notify NotifyLines.
Variables (user : option string) (threshold_service threshold_endpoint : Z).

Lemma notify_step_service_started (st : locals) (ks k : service_key) :
  last_call_service st = Some ks →
  Notify.step_service user threshold_service k st =
  (Bundle.step_service threshold_service k st,
   service_line user <$>
     (service_finding <$> closing threshold_service ks (count_service st) k)).
Proof.
  intros Hs. unfold Notify.step_service, Bundle.step_service, closing.
  rewrite Hs. destruct ks as [f t].
  destruct (decide (k = (f, t))) as [->|Hk].
  - by rewrite !decide_True by done.
  - rewrite !(decide_False (P := Some k = Some (f, t))) by congruence.
    by case_decide.
Qed.

Lemma notify_step_endpoint_started (st : locals) (ke k : endpoint_key) :
  last_call_endpoint st = Some ke →
  Notify.step_endpoint user threshold_endpoint k st =
  (Bundle.step_endpoint threshold_endpoint k st,
   endpoint_line user <$>
     (endpoint_finding <$> closing threshold_endpoint ke (count_endpoint st) k)).
Proof.
  intros He. unfold Notify.step_endpoint, Bundle.step_endpoint, closing.
  rewrite He. destruct ke as [[f t] e].
  destruct (decide (k = (f, t, e))) as [->|Hk].
  - by rewrite !decide_True by done.
  - rewrite !(decide_False (P := Some k = Some (f, t, e))) by congruence.
    by case_decide.
Qed.

(** Once both previous keys are set: the lines are those of the bundles the
    loop appends, the two levels shuffled together. *)
Lemma notify_loop_started (l : list Call) (st : locals)
    (ks : service_key) (ke : endpoint_key) :
  last_call_service st = Some ks →
  last_call_endpoint st = Some ke →
  ∃ st' out,
    for_fold (bundle_body user threshold_service threshold_endpoint) st l
      = (Ok st', out) ∧
    Bundle.loop threshold_service threshold_endpoint st l = Ok st' ∧
    interleaves out
      (service_line user <$> (service_finding <$>
         emitted threshold_service ks (count_service st) (call_service <$> l)))
      (endpoint_line user <$> (endpoint_finding <$>
         emitted threshold_endpoint ke (count_endpoint st) (call_endpoint <$> l))).
Proof.
  revert st ks ke. induction l as [|c l IH]; intros st ks ke Hs He.
  - exists st, []. split_and!; [done..|]. apply interleaves_nil.
  - cbn [for_fold Bundle.loop]. unfold bundle_body, Bundle.body.
    rewrite (notify_step_service_started st ks) by done.
    rewrite (step_service_started threshold_service st ks) by done.
    unfold mbind at 2, Out_bind. cbn [mbind result_bind].
    rewrite (notify_step_endpoint_started _ ke) by done.
    rewrite (step_endpoint_started threshold_endpoint _ ke) by done.
    unfold mbind at 1, Out_bind. cbn [mbind result_bind].
    cbn [bundles_service bundles_endpoint last_call_service last_call_endpoint
         count_service count_endpoint].
    edestruct IH as (st' & out & Hfold & Hloop & Hint);
      [| |rewrite Hfold, Hloop]; [reflexivity..|].
    eexists st', _. split_and!; [done..|].
    rewrite !fmap_cons, !emitted_cons, !fmap_app.
    cbn [bundles_service bundles_endpoint last_call_service last_call_endpoint
         count_service count_endpoint] in Hint.
    apply interleaves_app; [|done].
    apply interleaves_seq.
Qed.

Lemma notify_body_init (c : Call) :
  bundle_body user threshold_service threshold_endpoint init c =
  (Bundle.body threshold_service threshold_endpoint init c, []).
Proof.
  unfold bundle_body, Bundle.body, Notify.step_service, Bundle.step_service,
    Notify.step_endpoint, Bundle.step_endpoint. simpl.
  destruct (decide (threshold_service ≤ 1)); simpl; [done|].
  destruct (decide (threshold_endpoint ≤ 1)); simpl; done.
Qed.

End bundle_notify.

(** ** The notifications of the two graph detectors *)

Section graph_notify.
Import Graph Notify NotifyLines.

Lemma frontend_body_out (D : DiGraph) (frontend_services : gset string)
    (user : option string) (st : Frontend.locals) (node : string) :
  Notify.frontend_body D frontend_services user st node =
  (Ok (Frontend.body D frontend_services st node),
   frontend_lines D frontend_services user node).
Proof.
  unfold Notify.frontend_body, Frontend.body, frontend_lines.
  repeat case_decide; done.
Qed.

Lemma frontend_lines_perm (D : DiGraph) (frontend_services : gset string)
    (user : option string) (l : list string) :
  l ≫= frontend_lines D frontend_services user ≡ₚ
  (candidate_line user <$>
     filter (λ n, in_degree D n = 0%nat ∧ (0 < out_degree D n)%nat) l) ++
  ((λ n, violator_line user n (in_degree D n)) <$>
     filter (λ n, in_degree D n ≠ 0%nat ∧ n ∈ frontend_services) l).
Proof.
  induction l as [|n l IH]; [done|].
  rewrite bind_cons, !filter_cons, IH. unfold frontend_lines.
  repeat case_decide; simpl; try done; try (exfalso; naive_solver).
  by rewrite <- Permutation_middle.
Qed.

Lemma elements_frontend_candidates (G : MultiDiGraph)
    (frontend_services : option (gset string)) :
  filter (λ n, in_degree (nx_DiGraph G) n = 0%nat ∧
               (0 < out_degree (nx_DiGraph G) n)%nat) (nodes (nx_DiGraph G))
  ≡ₚ elements (Frontend.detect_frontend_integration G frontend_services).1.
Proof.
  apply NoDup_Permutation.
  - apply NoDup_filter, wf_nx_DiGraph.
  - apply NoDup_elements.
  - intros n. rewrite list_elem_of_filter, elem_of_elements,
      elem_of_frontend_candidates. tauto.
Qed.

Lemma elements_frontend_violators (G : MultiDiGraph)
    (frontend_services : option (gset string)) :
  filter (λ n, in_degree (nx_DiGraph G) n ≠ 0%nat ∧
               n ∈ default ∅ frontend_services) (nodes (nx_DiGraph G))
  ≡ₚ elements (Frontend.detect_frontend_integration G frontend_services).2.
Proof.
  apply NoDup_Permutation.
  - apply NoDup_filter, wf_nx_DiGraph.
  - apply NoDup_elements.
  - intros n. rewrite list_elem_of_filter, elem_of_elements,
      elem_of_frontend_violators. tauto.
Qed.

(** With exactly one predecessor, the first predecessor is that one. *)
Lemma first_pred_singleton (D : DiGraph) (node p : string) :
  pred D node = {[ p ]} → first_pred D node = p.
Proof. intros E. unfold first_pred. by rewrite E, elements_singleton. Qed.

Lemma first_pred_size_one (D : DiGraph) (node : string) :
  size (pred D node) = 1%nat →
  pred D node = {[ first_pred D node ]} ∧
  elements (pred D node) = [first_pred D node].
Proof.
  intros (p & E & E')%size_one_elements.
  by rewrite (first_pred_singleton _ _ _ E).
Qed.

Lemma inspect_preds_out (D : DiGraph) (user : option string)
    (st : IHR.locals) (node : string) :
  Notify.inspect_preds D user st node =
  (Ok (IHR.inspect_preds D st node),
   if decide (size (pred D node) = 1%nat)
   then [if decide (size (succ D (first_pred D node)) = 1%nat)
         then ihr_line user (first_pred D node, node)
         else ihr_violation_line user (first_pred D node, node)]
   else []).
Proof.
  unfold Notify.inspect_preds, IHR.inspect_preds.
  destruct (decide (size (pred D node) = 1%nat)) as [Hsz|Hsz]; [|done].
  destruct (first_pred_size_one _ _ Hsz) as [_ ->].
  by case_decide.
Qed.

Lemma ihr_body_out (D : DiGraph) (database_services : gset string)
    (user : option string) (st : IHR.locals) (node : string) :
  Notify.ihr_body D database_services user st node =
  (Ok (IHR.body D database_services st node),
   ihr_lines D database_services user node).
Proof.
  unfold Notify.ihr_body, IHR.body, ihr_lines.
  destruct (decide (out_degree D node = 0%nat)) as [Hz|Hz];
    destruct (decide (node ∈ database_services)) as [Hdb|Hdb].
  all: rewrite ?(bool_decide_eq_true_2 _ Hz), ?(bool_decide_eq_false_2 _ Hz),
         ?(bool_decide_eq_true_2 _ Hdb), ?(bool_decide_eq_false_2 _ Hdb).
  all: cbn [orb andb negb].
  all: try rewrite inspect_preds_out.
  all: unfold mbind, Out_bind, mret, Out_ret, print; cbn [fst snd].
  all: repeat case_decide; try done; exfalso; naive_solver.
Qed.

#[local] Instance pair_first_pred_inj (D : DiGraph) :
  Inj (=) (=) (λ n, (first_pred D n, n)).
Proof. by intros x y [= _ ->]. Qed.

Lemma ihr_lines_perm (D : DiGraph) (database_services : gset string)
    (user : option string) (l : list string) :
  l ≫= ihr_lines D database_services user ≡ₚ
  (ihr_line user <$> ((λ n, (first_pred D n, n)) <$>
     filter (λ n, ((out_degree D n = 0%nat ∨ n ∈ database_services) ∧
                   size (pred D n) = 1%nat) ∧
                  size (succ D (first_pred D n)) = 1%nat) l)) ++
  (ihr_violation_line user <$> ((λ n, (first_pred D n, n)) <$>
     filter (λ n, ((out_degree D n = 0%nat ∨ n ∈ database_services) ∧
                   size (pred D n) = 1%nat) ∧
                  size (succ D (first_pred D n)) ≠ 1%nat) l)) ++
  ((λ n, call_violation_line user n (out_degree D n)) <$>
     filter (λ n, out_degree D n ≠ 0%nat ∧ n ∈ database_services) l).
Proof.
  induction l as [|n l IH]; [done|].
  rewrite bind_cons, !filter_cons, IH. unfold ihr_lines.
  destruct (decide ((out_degree D n = 0%nat ∨ n ∈ database_services) ∧
                    size (pred D n) = 1%nat)) as [Hi|Hi];
    destruct (decide (size (succ D (first_pred D n)) = 1%nat)) as [Hs|Hs];
    destruct (decide (out_degree D n ≠ 0%nat ∧ n ∈ database_services))
      as [Hcv|Hcv].
  all: rewrite ?(decide_True (P := _ ∧ size (succ D (first_pred D n)) = 1%nat))
         by done.
  all: rewrite ?(decide_False (P := _ ∧ size (succ D (first_pred D n)) = 1%nat))
         by tauto.
  all: rewrite ?(decide_True (P := _ ∧ size (succ D (first_pred D n)) ≠ 1%nat))
         by done.
  all: rewrite ?(decide_False (P := _ ∧ size (succ D (first_pred D n)) ≠ 1%nat))
         by tauto.
  all: rewrite ?fmap_cons; simpl; solve_Permutation.
Qed.

Lemma pred_singleton_first (D : DiGraph) (n p : string) :
  pred D n = {[ p ]} ↔ size (pred D n) = 1%nat ∧ first_pred D n = p.
Proof.
  split.
  - intros E. split; [by rewrite E, size_singleton|].
    by apply first_pred_singleton.
  - intros [Hsz <-]. by apply first_pred_size_one.
Qed.

(** The pairs, the call violators and the lines of the loop. *)
Lemma elements_ihr_results (G : MultiDiGraph)
    (database_services : option (gset string))
    (c v : gset (string * string)) (cv no : gset string) :
  IHR.detect_information_holder_resource G database_services = (c, v, cv, no) →
  let D := nx_DiGraph G in
  let db := default ∅ database_services in
  (λ n, (first_pred D n, n)) <$>
     filter (λ n, ((out_degree D n = 0%nat ∨ n ∈ db) ∧
                   size (pred D n) = 1%nat) ∧
                  size (succ D (first_pred D n)) = 1%nat) (nodes D)
    ≡ₚ elements c ∧
  (λ n, (first_pred D n, n)) <$>
     filter (λ n, ((out_degree D n = 0%nat ∨ n ∈ db) ∧
                   size (pred D n) = 1%nat) ∧
                  size (succ D (first_pred D n)) ≠ 1%nat) (nodes D)
    ≡ₚ elements v ∧
  filter (λ n, out_degree D n ≠ 0%nat ∧ n ∈ db) (nodes D) ≡ₚ elements cv.
Proof.
  intros E D db.
  destruct (elem_of_ihr_results _ _ _ _ _ _ E) as (Hc & Hv & Hcv & _).
  fold D db in Hc, Hv, Hcv.
  pose proof (proj1 (wf_nx_DiGraph G)) as Hnd. fold D in Hnd.
  split_and!.
  - apply NoDup_Permutation.
    + apply (NoDup_fmap_2 _), NoDup_filter, Hnd.
    + apply NoDup_elements.
    + intros [p n]. rewrite list_elem_of_fmap, elem_of_elements, Hc,
        pred_singleton_first. split.
      * intros (x & [= -> ->] & [[[? ?] ?] ?]%list_elem_of_filter). done.
      * intros (? & ? & [? <-] & ?). exists n. split; [done|].
        by apply list_elem_of_filter.
  - apply NoDup_Permutation.
    + apply (NoDup_fmap_2 _), NoDup_filter, Hnd.
    + apply NoDup_elements.
    + intros [p n]. rewrite list_elem_of_fmap, elem_of_elements, Hv,
        pred_singleton_first. split.
      * intros (x & [= -> ->] & [[[? ?] ?] ?]%list_elem_of_filter). done.
      * intros (? & ? & [? <-] & ?). exists n. split; [done|].
        by apply list_elem_of_filter.
  - apply NoDup_Permutation.
    + apply NoDup_filter, Hnd.
    + apply NoDup_elements.
    + intros n. rewrite list_elem_of_filter, elem_of_elements, Hcv. tauto.
Qed.

Lemma for_fold_print (line : string → string) (items : list string) :
  for_fold (λ (_ : unit) service, print (line service)) tt items
  = (Ok tt, line <$> items).
Proof.
  induction items as [|x items IH]; [done|].
  cbn [for_fold]. unfold mbind at 1, Out_bind. cbn [print].
  by rewrite IH.
Qed.

End graph_notify.

Section notify_claims.
Import Graph Notify NotifyLines.

(** X15. The notifications of [detect_request_bundle]: it returns what the
    function without the notifications returns; when it returns the two
    lists, it has written one line per bundle, the lines of each list in the
    order of the list and the two levels shuffled together; when it raises,
    it has written nothing. A label that is [None] is written as [None]. *)
Theorem bundle_notifications (pipeline : list Bundle.Call)
    (threshold_service threshold_endpoint : Z) (user : option string) :
  let '(r, out) :=
    Notify.detect_request_bundle pipeline threshold_service threshold_endpoint
      user in
  r = Bundle.detect_request_bundle pipeline threshold_service threshold_endpoint ∧
  match r with
  | Ok (bs, be) =>
      interleaves out (service_line user <$> bs) (endpoint_line user <$> be)
  | Raise _ => out = []
  end.
Proof.
  unfold Notify.detect_request_bundle, Bundle.detect_request_bundle.
  destruct pipeline as [|c rest].
  - simpl. split; [done|]. apply interleaves_nil.
  - cbn [for_fold Bundle.loop]. rewrite notify_body_init.
    destruct (decide (2 ≤ threshold_service ∧ 2 ≤ threshold_endpoint))
      as [[Hs He]|Hlow].
    + rewrite body_init_ok by done.
      unfold mbind at 2, Out_bind. cbn [mbind result_bind].
      edestruct (notify_loop_started user threshold_service threshold_endpoint rest)
        as (st' & out & Hfold & Hloop & Hint);
        [| |rewrite Hfold, Hloop]; [reflexivity..|].
      destruct (loop_started threshold_service threshold_endpoint rest
                  {| Bundle.bundles_service := [];
                     Bundle.bundles_endpoint := [];
                     Bundle.last_call_service := Some (Bundle.call_service c);
                     Bundle.last_call_endpoint := Some (Bundle.call_endpoint c);
                     Bundle.count_service := 1;
                     Bundle.count_endpoint := 1 |} _ _ eq_refl eq_refl)
        as (st'' & Hloop' & Hbs & Hbe).
      rewrite Hloop in Hloop'. injection Hloop' as <-.
      simpl. rewrite Hbs, Hbe. simpl. rewrite !app_nil_r. by split.
    + rewrite body_init_raise by lia. simpl. done.
Qed.

(** X16. The notifications of [detect_frontend_integration]: it returns
    what the function without the notifications returns and has written one
    line per candidate and one line per violator, the line of a violator
    with its in-degree; a label that is [None] is written as [NoUser]. *)
Theorem frontend_notifications (G : MultiDiGraph)
    (frontend_services : option (gset string)) (user : option string) :
  let '(r, out) := Notify.detect_frontend_integration G frontend_services user in
  let '(frontend_candidates, frontend_violators) :=
    Frontend.detect_frontend_integration G frontend_services in
  let label := Some (default "NoUser" user) in
  r = Ok (frontend_candidates, frontend_violators) ∧
  out ≡ₚ
    (candidate_line label <$> elements frontend_candidates) ++
    ((λ n, violator_line label n (in_degree (nx_DiGraph G) n)) <$>
       elements frontend_violators).
Proof.
  pose proof (elements_frontend_candidates G frontend_services) as Hc.
  pose proof (elements_frontend_violators G frontend_services) as Hv.
  pose proof (frontend_lines_perm (nx_DiGraph G) (default ∅ frontend_services)
    (Some (default "NoUser" user)) (nodes (nx_DiGraph G))) as Hlines.
  unfold Notify.detect_frontend_integration.
  rewrite (for_fold_ok _ _ _ _ _ (frontend_body_out _ _ _)).
  set (lines := nodes (nx_DiGraph G) ≫= _) in *.
  unfold mbind, Out_bind, mret, Out_ret. rewrite app_nil_r.
  destruct (Frontend.detect_frontend_integration G frontend_services)
    as [c v] eqn:E.
  unfold Frontend.detect_frontend_integration in E. cbn [fst snd] in *.
  split; [by rewrite <- E|]. by rewrite Hlines, Hc, Hv.
Qed.

(** X17. The notifications of [detect_information_holder_resource], whatever
    the order in which Python goes through a set: it returns what the
    function without the notifications returns and has written one line per
    candidate pair, per violator pair, per call violator (with its
    out-degree) and per database service without IHR, those last. A label
    that is [None] is written as [None]. *)
Theorem ihr_notifications (set_order : gset string → list string)
    (G : MultiDiGraph) (database_services : option (gset string))
    (user : option string) :
  (∀ s, set_order s ≡ₚ elements s) →
  let '(r, out) :=
    Notify.detect_information_holder_resource set_order G database_services
      user in
  let '(ihr_candidates, ihr_violators,
        database_call_violators, database_no_ihr_violators) :=
    IHR.detect_information_holder_resource G database_services in
  r = Ok (ihr_candidates, ihr_violators,
          database_call_violators, database_no_ihr_violators) ∧
  out ≡ₚ
    (ihr_line user <$> elements ihr_candidates) ++
    (ihr_violation_line user <$> elements ihr_violators) ++
    ((λ n, call_violation_line user n (out_degree (nx_DiGraph G) n)) <$>
       elements database_call_violators) ++
    (no_ihr_line user <$> elements database_no_ihr_violators) ∧
  ∃ before,
    out = before ++ (no_ihr_line user <$> set_order database_no_ihr_violators).
Proof.
  intros Horder.
  pose proof (ihr_lines_perm (nx_DiGraph G) (default ∅ database_services)
    user (nodes (nx_DiGraph G))) as Hlines.
  destruct (IHR.detect_information_holder_resource G database_services)
    as [[[c v] cv] no] eqn:E.
  destruct (elements_ihr_results _ _ _ _ _ _ E) as (Hc & Hv & Hcv).
  unfold IHR.detect_information_holder_resource in E.
  unfold Notify.detect_information_holder_resource.
  rewrite (for_fold_ok _ _ _ _ _ (ihr_body_out _ _ _)).
  set (lines := nodes (nx_DiGraph G) ≫= _) in *.
  injection E as Ec Ev Ecv Eno.
  unfold mbind at 1, Out_bind at 1.
  unfold mbind at 1, Out_bind at 1. rewrite for_fold_print.
  unfold mret, Out_ret. rewrite app_nil_r, Ec, Ev, Ecv, Eno.
  split; [done|]. split; [|by eexists].
  rewrite Hlines, Hc, Hv, Hcv, Horder. by rewrite <- !app_assoc.
Qed.

Lemma ihr_notifications_witness :
  (∀ s : gset string, elements s ≡ₚ elements s) ∧
  ∃ before,
    (Notify.detect_information_holder_resource elements G2
       (Some {[ "S"; "Z" ]}) (Some "u")).2 =
    before ++
    ["u: Information Holder Resource Violation - 'Z' is designated as database service but no IHR detected."].
Proof.
  assert (∀ s : gset string, elements s ≡ₚ elements s) as H by done.
  split; [exact H|].
  pose proof (ihr_notifications elements G2 (Some {[ "S"; "Z" ]}) (Some "u") H)
    as Hw.
  assert (Notify.detect_information_holder_resource elements G2
            (Some {[ "S"; "Z" ]}) (Some "u") =
          (Ok ({[ ("P", "S") ]}, ∅, {[ "S" ]}, {[ "Z" ]}),
           ["u: Information Holder Resource - 'P' is a potential IHR for 'S'";
            "u: Information Holder Resource Violation - 'S' is designated as database service but has outgoing calls(out_degree=1)";
            "u: Information Holder Resource Violation - 'Z' is designated as database service but no IHR detected."]))
    as E by (vm_compute; reflexivity).
  assert (IHR.detect_information_holder_resource G2 (Some {[ "S"; "Z" ]}) =
          ({[ ("P", "S") ]}, ∅, {[ "S" ]}, {[ "Z" ]}))
    as E' by (vm_compute; reflexivity).
  rewrite E, E' in Hw. destruct Hw as (_ & _ & before & Hb).
  exists before. rewrite E. exact Hb.
Defined.

End notify_claims.
